(** * Network speed test: measurement engine

    A shallow embedding of the measurement engine of the speed-test
    repository, and the properties its specification states about it.

    Definitions, one module per component:
    - [Quality]: the client's quality heuristic
      (frontend/script.js, [SpeedTest.estimateSignalQuality]);
    - [Binary64]: the numbers and the [Math] functions of the distance
      computation;
    - [Selector]: the server directory, the haversine distance and the
      optimal-server query (backend/server.js);
    - [Aggregator]: the result store and the per-server running averages
      (backend/server.js, save-results and results/:id);
    - [Transfer]: the download operation of the test server and of the
      regional worker, with the worker's payload cache;
    - [Orchestrator]: the client's run (start, stop, phases) and the
      byte accounting of its download phase (frontend/script.js);
    - [Directory]: the statistics snapshot and the connection counters
      of the proxy (backend/server.js);
    - [Upload], [Streaming]: the upload operation behind its body
      parser, and what a download keeps true;
    - [Pool]: the worker pool of the regional server;
    - [Client]: server selection, country filter and ping phase of the
      page (frontend/script.js), with [Js] for the sort of the language.
    The properties follow, one module of lemmas per component.

    Numbers.  JavaScript numbers that carry byte counts, identifiers or
    scores are integers ([Z]).  Measured quantities that are compared
    and averaged (milliseconds, percentages, throughput) are exact
    rationals ([Q]): their rounding is not part of the model.
    Coordinates and distances are binary64 numbers ([float]) with the
    arithmetic, the comparisons and the [NaN] of IEEE 754; a decimal
    literal denotes the nearest such number.  [Math.sin], [Math.cos]
    and [Math.atan2], whose results the language leaves to the engine,
    are inputs.

    Environment.  What a handler reads from outside the program (the
    clock, random draws, generated identifiers, the results of
    [res.write], the events of the browser) is an explicit input. *)

From Stdlib Require Import ZArith QArith Qabs Lia List Ascii String.
From Stdlib Require Import Permutation.
From Stdlib Require Import Floats.
From Stdlib Require Lqa.
From stdpp Require Import gmap strings list fin_maps.

Set Warnings "-inexact-float".

Local Open Scope Z_scope.

(* ===================================================================== *)
(** ** Client side: quality score *)
(* ===================================================================== *)

Module Quality.

Local Open Scope Q_scope.

(** [this.testResults] of the orchestrator. *)
Record TestResults := mkTestResults {
  ping : Q;
  jitter : Q;
  download : Q;
  upload : Q;
  packetLoss : Q
}.

(** [a > b] on numbers, as a boolean. *)
Definition Qgtb (a b : Q) : bool := negb (Qle_bool a b).

Inductive Label := Excellent | Good | Fair | Poor | Bad.

(** The body of [estimateSignalQuality] up to the label: [score] is a
    local variable updated by three if / else-if statements. *)
Definition signalScore (r : TestResults) : Z :=
  let score := 100%Z in
  let score := if Qgtb (ping r) 100 then (score - 30)%Z
               else if Qgtb (ping r) 50 then (score - 15)%Z
               else score in
  let score := if Qgtb (jitter r) 10 then (score - 20)%Z
               else if Qgtb (jitter r) 5 then (score - 10)%Z
               else score in
  let score := if Qgtb (packetLoss r) 0.1 then (score - 20)%Z
               else if Qgtb (packetLoss r) 0.05 then (score - 10)%Z
               else score in
  score.

(** The chain of early returns that ends [estimateSignalQuality]. *)
Definition labelOf (score : Z) : Label :=
  if (score >=? 90)%Z then Excellent
  else if (score >=? 80)%Z then Good
  else if (score >=? 70)%Z then Fair
  else if (score >=? 60)%Z then Poor
  else Bad.

Definition estimateSignalQuality (r : TestResults) : Label :=
  labelOf (signalScore r).

(** The specification's wording of the same heuristic: three
    independent penalties subtracted from 100, each decided by the
    order of the rationals. *)
Definition spec_ping_penalty (p : Q) : Z :=
  if Qlt_le_dec 100 p then 30%Z else if Qlt_le_dec 50 p then 15%Z else 0%Z.
Definition spec_jitter_penalty (j : Q) : Z :=
  if Qlt_le_dec 10 j then 20%Z else if Qlt_le_dec 5 j then 10%Z else 0%Z.
Definition spec_loss_penalty (l : Q) : Z :=
  if Qlt_le_dec 0.1 l then 20%Z else if Qlt_le_dec 0.05 l then 10%Z else 0%Z.

Definition spec_score (p j l : Q) : Z :=
  (100 - spec_ping_penalty p - spec_jitter_penalty j - spec_loss_penalty l)%Z.

Inductive spec_label : Z -> Label -> Prop :=
| SL_excellent s : (90 <= s)%Z -> spec_label s Excellent
| SL_good s : (80 <= s < 90)%Z -> spec_label s Good
| SL_fair s : (70 <= s < 80)%Z -> spec_label s Fair
| SL_poor s : (60 <= s < 70)%Z -> spec_label s Poor
| SL_bad s : (s < 60)%Z -> spec_label s Bad.

End Quality.

(* ===================================================================== *)
(** ** JavaScript numbers as binary64 *)
(* ===================================================================== *)

Module Binary64.

Local Open Scope float_scope.

(** The functions of [Math] whose results the language leaves to the
    engine. *)
Record Engine := mkEngine {
  engine_sin : float -> float;
  engine_cos : float -> float;
  engine_atan2 : float -> float -> float
}.

Definition Math_PI : float := 3.141592653589793.

Definition Math_sin (M : Engine) (x : float) : float := engine_sin M x.

Definition Math_cos (M : Engine) (x : float) : float := engine_cos M x.

(** [Math.atan2(y, x)] is [NaN] as soon as one argument is. *)
Definition Math_atan2 (M : Engine) (y x : float) : float :=
  if is_nan y || is_nan x then nan else engine_atan2 M y x.

(** [Math.sqrt]: the correctly rounded root, [NaN] below zero. *)
Definition Math_sqrt (x : float) : float := PrimFloat.sqrt x.

(** An integer below 2^53 as a number. *)
Definition of_Z (n : Z) : float := PrimFloat.of_uint63 (Uint63.of_Z n).

(** [Math.floor]: a number with a fraction has an exponent below zero
    and an integer part below 2^53. *)
Definition Math_floor (x : float) : float :=
  match Prim2SF x with
  | S754_finite s m e =>
    if (0 <=? e)%Z then x
    else
      let q := (Z.pos m / 2 ^ (- e))%Z in
      if s then
        if (Z.pos m mod 2 ^ (- e) =? 0)%Z then - of_Z q else - of_Z (q + 1)
      else of_Z q
  | _ => x
  end.

(** A function known at the arguments listed, [NaN] elsewhere. *)
Fixpoint table (entries : list (float * float)) (x : float) : float :=
  match entries with
  | [] => nan
  | (k, v) :: rest => if k =? x then v else table rest x
  end.

Fixpoint table2 (entries : list (float * float * float)) (y x : float)
  : float :=
  match entries with
  | [] => nan
  | (ky, kx, v) :: rest =>
    if (ky =? y) && (kx =? x) then v else table2 rest y x
  end.

End Binary64.

(* ===================================================================== *)
(** ** Server directory and selector (backend/server.js) *)
(* ===================================================================== *)

Module Selector.

Import Binary64.
Local Open Scope float_scope.

Inductive Status := online | offline.

Record Coordinates := mkCoordinates { lat : float; lon : float }.

(** An entry of [testServers].  [latency] is not part of the static
    registry: the property exists only once a handler has assigned it. *)
Record TestServer := mkTestServer {
  id : Z;
  name : string;
  location : string;
  country : string;
  city : string;
  coordinates : Coordinates;
  host : string;
  port : Z;
  capacity : Z;
  activeConnections : Z;
  status : Status;
  latency : option float
}.

(** [const testServers = [...]]; the first port comes from the process
    environment. *)
Definition testServers (TEST_SERVER_PORT : Z) : list TestServer :=
  [ mkTestServer 1 "Primary Server" "New York, USA" "US" "New York"
      (mkCoordinates 40.7128 (-74.0060)) "localhost" TEST_SERVER_PORT
      1000 0 online None;
    mkTestServer 2 "Europe Server" "London, UK" "GB" "London"
      (mkCoordinates 51.5074 (-0.1278)) "london.speedtest.example.com" 3001
      800 0 online None;
    mkTestServer 3 "Asia Server" "Singapore" "SG" "Singapore"
      (mkCoordinates 1.3521 103.8198) "singapore.speedtest.example.com" 3001
      600 0 online None;
    mkTestServer 4 "Australia Server" "Sydney, Australia" "AU" "Sydney"
      (mkCoordinates (-33.8688) 151.2093) "sydney.speedtest.example.com" 3001
      500 0 online None ].

(** [const a] of [calculateDistance]. *)
Definition haversine_a (M : Engine) (lat1 lon1 lat2 lon2 : float) : float :=
  let dLat := (lat2 - lat1) * Math_PI / 180 in
  let dLon := (lon2 - lon1) * Math_PI / 180 in
  Math_sin M (dLat / 2) * Math_sin M (dLat / 2) +
  Math_cos M (lat1 * Math_PI / 180) * Math_cos M (lat2 * Math_PI / 180) *
  Math_sin M (dLon / 2) * Math_sin M (dLon / 2).

(** [calculateDistance(lat1, lon1, lat2, lon2)]: the haversine formula.
    Nothing keeps [a] from exceeding 1 by a rounding error, and then
    [Math.sqrt(1 - a)] is [NaN]. *)
Definition calculateDistance (M : Engine) (lat1 lon1 lat2 lon2 : float)
  : float :=
  let R_earth := 6371 in
  let a := haversine_a M lat1 lon1 lat2 lon2 in
  let c := 2 * Math_atan2 M (Math_sqrt a) (Math_sqrt (1 - a)) in
  R_earth * c.

(** The result of [geoip.lookup]: [null], or an object whose [ll]
    property (latitude, longitude) may be missing. *)
Record GeoInfo := mkGeo { ll : option (float * float) }.

Definition is_online (s : TestServer) : bool :=
  match status s with online => true | offline => false end.

(** The object sent back: a directory entry, with a [distance] property
    when it is the copy built inside the loop. *)
Record Selected := mkSelected {
  sel_server : TestServer;
  sel_distance : option float
}.

(** Loop state: [optimalServer] and [minDistance]. *)
Definition scan_state : Type := option Selected * float.

(** One iteration of [for (const server of testServers)]; the comparison
    is false when the distance is [NaN]. *)
Definition scan_step (M : Engine) (clat clon : float) (st : scan_state)
    (server : TestServer) : scan_state :=
  let distance :=
    calculateDistance M clat clon
      (lat (coordinates server)) (lon (coordinates server)) in
  if (distance <? snd st) && is_online server
  then (Some (mkSelected server (Some distance)), distance)
  else st.

Definition scan (M : Engine) (clat clon : float) (dir : list TestServer)
  : scan_state :=
  fold_left (scan_step M clat clon) dir (None, infinity).

(** [Math.floor(minDistance * 0.1) + 10]. *)
Definition simulated_latency (minDistance : float) : float :=
  Math_floor (minDistance * 0.1) + 10.

Definition set_latency (l : float) (s : TestServer) : TestServer :=
  mkTestServer (id s) (name s) (location s) (country s) (city s)
    (coordinates s) (host s) (port s) (capacity s) (activeConnections s)
    (status s) (Some l).

Inductive Reply :=
| Json (body : option Selected)   (* [res.json(x)]; [None] is [undefined] *)
| Error500.                       (* the [catch] branch *)

(** [GET /api/optimal-server].  Returns the directory after the request
    and the reply.  When the loop has selected nothing the handler
    falls back to [testServers[0]] itself, not to a copy, so the latency
    assignment lands in the directory. *)
Definition optimal_server (M : Engine) (dir : list TestServer)
    (geo : option GeoInfo) : list TestServer * Reply :=
  match geo with
  | None => (dir, Json (option_map (fun s => mkSelected s None) (head dir)))
  | Some g =>
    match ll g with
    | None => (dir, Json (option_map (fun s => mkSelected s None) (head dir)))
    | Some (clat, clon) =>
      let '(optimalServer, minDistance) := scan M clat clon dir in
      match optimalServer with
      | Some sel =>
        (dir, Json (Some (mkSelected
                            (set_latency (simulated_latency minDistance)
                                         (sel_server sel))
                            (sel_distance sel))))
      | None =>
        match dir with
        | [] => (dir, Error500)
        | first :: rest =>
          let first' := set_latency (simulated_latency minDistance) first in
          (first' :: rest, Json (Some (mkSelected first' None)))
        end
      end
    end
  end.

Definition dist_to (M : Engine) (clat clon : float) (s : TestServer)
  : float :=
  calculateDistance M clat clon (lat (coordinates s)) (lon (coordinates s)).

(** A valid (latitude, longitude) pair, in degrees. *)
Definition valid_coordinates (p : float * float) : bool :=
  (-90 <=? fst p) && (fst p <=? 90) && (-180 <=? snd p) && (snd p <=? 180).

(** The entries the loop can select: online, at a distance that is a
    number below [Infinity]. *)
Definition candidate (M : Engine) (clat clon : float) (s : TestServer)
  : bool :=
  is_online s && (dist_to M clat clon s <? infinity).

(** The entry at position [i] can be selected, is strictly nearer to the
    client than every such entry before it and at least as near as
    every such entry after it. *)
Definition first_nearest (M : Engine) (clat clon : float)
    (dir : list TestServer) (i : nat) (s : TestServer) : Prop :=
  dir !! i = Some s
  /\ candidate M clat clon s = true
  /\ forall j y, dir !! j = Some y -> candidate M clat clon y = true ->
       ((j < i)%nat -> (dist_to M clat clon s <? dist_to M clat clon y) = true)
       /\ ((i < j)%nat ->
           (dist_to M clat clon s <=? dist_to M clat clon y) = true).

(** What the selection loop holds after the entries [seen]. *)
Definition scan_first (M : Engine) (clat clon : float)
    (seen : list TestServer) (st : scan_state) : Prop :=
  match st with
  | (None, minDistance) =>
    minDistance = infinity
    /\ forall s, In s seen -> candidate M clat clon s = false
  | (Some sel, minDistance) =>
    exists i s,
      first_nearest M clat clon seen i s
      /\ sel = mkSelected s (Some (dist_to M clat clon s))
      /\ minDistance = dist_to M clat clon s
  end.

(** Everything in an entry but its [latency]. *)
Definition registry_fields (s : TestServer) :=
  (id s, name s, location s, country s, city s, coordinates s, host s,
   port s, capacity s, activeConnections s, status s).

(** *** A client near the antipode of New York *)

(** What an engine returns at the four arguments met on the way from
    the point (-40.712800053, 105.994) of the Indian Ocean to New York
    (40.7128, -74.0060): half the difference of the latitudes and of
    the longitudes, and the two latitudes, in radians. *)
Definition rounds_as_measured (M : Engine) : Prop :=
  Math_sin M 0.7105724081684598 = 0.6522677567432702
  /\ Math_sin M (-1.5707963267948966) = -1
  /\ Math_cos M (-0.7105724086309719) = 0.7579886364951387
  /\ Math_cos M 0.7105724077059474 = 0.7579886370985023.

(** The values of [Math.sin], [Math.cos] and [Math.atan2] at the
    arguments met when the distances from that point to the four
    entries of the registry are computed. *)
Definition sin_samples : list (float * float) :=
  [ (0.7105724081684598, 0.6522677567432702);
    (-1.5707963267948966, -1);
    (0.8047730638863495, 0.7206733324690564);
    (-0.9260874090714591, -0.7992747312972098);
    (0.3670855027235936, 0.35889663446947034);
    (-0.018973474298430347, -0.01897233593346195);
    (0.05972516746575822, 0.05968966623419799);
    (0.39457792863849617, 0.384418584127548) ].

Definition cos_samples : list (float * float) :=
  [ (-0.7105724086309719, 0.7579886364951387);
    (0.7105724077059474, 0.7579886370985023);
    (0.8989737191417272, 0.6224135541865977);
    (0.02359859681621533, 0.9997215660360244);
    (-0.5911220736994555, 0.830315878062329) ].

Definition atan2_samples : list (float * float * float) :=
  [ (0.9059600248883006, 0.4233632403792158, 1.1336418631277967);
    (0.3592764338504268, 0.9332311846909745, 0.3674924433075185);
    (0.3107566161895527, 0.9504895188766781, 0.3159889568806224) ].

(** An engine known at these arguments only. *)
Definition sampled : Engine :=
  mkEngine (table sin_samples) (table cos_samples) (table2 atan2_samples).

End Selector.

(* ===================================================================== *)
(** ** Result aggregator (backend/server.js) *)
(* ===================================================================== *)

Module Aggregator.

Import Quality.

(** The [server] object of a submitted result: the client's selected
    directory entry. *)
Record ServerRef := mkServerRef {
  srv_id : Z;
  srv_name : string;
  srv_host : string
}.

Record UserInfo := mkUserInfo { ip : string; isp : string }.

(** The JSON body of [POST /api/save-results], and the record kept in
    [testResults]: the handler stores the body object itself after
    assigning three of its properties.  A property that the body lacks
    is [None]. *)
Record TestResult := mkTestResult {
  id : option string;
  timestamp : option string;
  clientIp : option string;
  server : option ServerRef;
  results : option TestResults;
  userInfo : option UserInfo
}.

Record ServerStats := mkServerStats {
  totalTests : Z;
  avgPing : Q;
  avgDownload : Q;
  avgUpload : Q;
  lastUpdated : string
}.

(** The two process-lifetime maps. *)
Record Store := mkStore {
  testResults : gmap string TestResult;
  serverStats : gmap Z ServerStats
}.

Definition empty_store : Store := mkStore ∅ ∅.

(** What a request takes from its environment: the value of [uuidv4()],
    the clock readings, and the caller's address
    ([x-forwarded-for] or the socket's, possibly [undefined]). *)
Record Env := mkEnv {
  uuid : string;
  now : string;
  now_stats : string;
  remote : option string
}.

Inductive SaveReply :=
| Saved (testId : string)     (* 200 { success: true, testId, message } *)
| SaveFailed.                 (* 500 { success: false, error } *)

Inductive GetReply :=
| Found (r : TestResult)      (* 200 { success: true, results } *)
| NotFound.                   (* 404 { success: false, error } *)

(** The three assignments under "Add metadata". *)
Definition add_metadata (e : Env) (body : TestResult) : TestResult :=
  mkTestResult (Some (uuid e)) (Some (now e)) (remote e)
    (server body) (results body) (userInfo body).

Definition fresh_stats (e : Env) : ServerStats :=
  mkServerStats 0 0 0 0 (now e).

(** [(avg * (totalTests - 1) + sample) / totalTests], with [totalTests]
    already incremented. *)
Definition fold_sample (avg : Q) (totalTests : Z) (sample : Q) : Q :=
  ((avg * inject_Z (totalTests - 1) + sample) / inject_Z totalTests)%Q.

(** [POST /api/save-results].  The statistics object is the one held in
    [serverStats] when there is one, so [stats.totalTests++] is already
    visible in the map when reading [results.results.ping] throws on a
    body without [results]; a fresh object is lost in that case. *)
Definition save_results (st : Store) (e : Env) (body : TestResult)
  : Store * SaveReply :=
  let testId := uuid e in
  let results_ := add_metadata e body in
  let testResults' := <[testId := results_]> (testResults st) in
  match server results_ with
  | Some srv =>
    if (srv_id srv =? 0)%Z then
      (mkStore testResults' (serverStats st), Saved testId)
    else
      let serverId := srv_id srv in
      let held := serverStats st !! serverId in
      let stats := default (fresh_stats e) held in
      let n := (totalTests stats + 1)%Z in
      match results results_ with
      | None =>
        let bumped :=
          mkServerStats n (avgPing stats) (avgDownload stats)
            (avgUpload stats) (lastUpdated stats) in
        let serverStats' :=
          match held with
          | Some _ => <[serverId := bumped]> (serverStats st)
          | None => serverStats st
          end in
        (mkStore testResults' serverStats', SaveFailed)
      | Some m =>
        let stats' :=
          mkServerStats n
            (fold_sample (avgPing stats) n (ping m))
            (fold_sample (avgDownload stats) n (download m))
            (fold_sample (avgUpload stats) n (upload m))
            (now_stats e) in
        (mkStore testResults' (<[serverId := stats']> (serverStats st)),
         Saved testId)
      end
  | None => (mkStore testResults' (serverStats st), Saved testId)
  end.

(** [GET /api/results/:id]. *)
Definition get_results (st : Store) (testId : string) : GetReply :=
  match testResults st !! testId with
  | Some r => Found r
  | None => NotFound
  end.

(** The store after a sequence of submissions, oldest first. *)
Definition submit_all (st : Store) (reqs : list (Env * TestResult)) : Store :=
  fold_left (fun st req => fst (save_results st (fst req) (snd req))) reqs st.

(** A body that is a full TestResult: it carries its metric set. *)
Definition full (body : TestResult) : Prop := is_Some (results body).

(** Whether a body references server [sid] (a zero id counts as none). *)
Definition references (sid : Z) (body : TestResult) : bool :=
  match server body with
  | Some srv => negb (srv_id srv =? 0)%Z && (srv_id srv =? sid)%Z
  | None => false
  end.

(** The samples of one metric submitted for [sid], oldest first. *)
Definition samples (metric : TestResults -> Q) (sid : Z)
    (reqs : list (Env * TestResult)) : list Q :=
  omap (fun req : Env * TestResult =>
          if references sid (snd req)
          then metric <$> results (snd req) else None) reqs.

Definition Qsum (l : list Q) : Q := fold_right Qplus 0%Q l.

(** The batch arithmetic mean. *)
Definition mean (l : list Q) : Q := (Qsum l / inject_Z (Z.of_nat (length l)))%Q.

(** What [serverStats] holds for [sid] after the submissions [seen]:
    nothing before the first sample, then the count and, for each
    average, average * count = sum of the samples. *)
Definition stats_inv (sid : Z) (seen : list (Env * TestResult)) (st : Store)
  : Prop :=
  let n := length (samples ping sid seen) in
  match serverStats st !! sid with
  | None => n = 0%nat
  | Some stats =>
    (1 <= n)%nat
    /\ totalTests stats = Z.of_nat n
    /\ (avgPing stats * inject_Z (Z.of_nat n)
        == Qsum (samples ping sid seen))%Q
    /\ (avgDownload stats * inject_Z (Z.of_nat n)
        == Qsum (samples download sid seen))%Q
    /\ (avgUpload stats * inject_Z (Z.of_nat n)
        == Qsum (samples upload sid seen))%Q
  end.

(** The submissions that reference [sid], and the issued identifiers. *)
Definition referencing (sid : Z) (reqs : list (Env * TestResult))
  : list (Env * TestResult) :=
  filter (fun req => references sid (snd req) = true) reqs.

Definition issued (reqs : list (Env * TestResult)) : list string :=
  map (fun req => uuid (fst req)) reqs.

(** Two runs against server 1 and one against server 2, as the client
    posts them: each already carries an [id] and a [timestamp]. *)
Definition example_env (n : string) : Env :=
  mkEnv ("uuid-" ++ n) "2024-01-01T00:00:00.000Z" "2024-01-01T00:00:00.001Z"
    (Some "203.0.113.7"%string).

Definition example_body (sid : Z) (p d u : Q) : TestResult :=
  mkTestResult (Some "TEST_1700000000000_abc123xyz"%string)
    (Some "2023-11-14T22:13:20.000Z"%string) None
    (Some (mkServerRef sid "Primary Server" "localhost"))
    (Some (mkTestResults p 2 d u 0.01))
    (Some (mkUserInfo "198.51.100.4" "Unknown")).

Definition example_submissions : list (Env * TestResult) :=
  [ (example_env "a", example_body 1 10 90 40);
    (example_env "b", example_body 2 55 20 5);
    (example_env "c", example_body 1 30 110 20) ].

(** The replies to a sequence of submissions, oldest first. *)
Fixpoint replies (st : Store) (reqs : list (Env * TestResult))
  : list SaveReply :=
  match reqs with
  | [] => []
  | req :: rest =>
    snd (save_results st (fst req) (snd req))
    :: replies (fst (save_results st (fst req) (snd req))) rest
  end.

(** A body that names its server and carries no [results] object. *)
Definition incomplete_body : TestResult :=
  mkTestResult None None None
    (Some (mkServerRef 1 "Primary Server" "localhost")) None None.

(** Two runs against server 1 with pings 10 and 30, and between them a
    submission for server 1 without [results]. *)
Definition interrupted_submissions : list (Env * TestResult) :=
  [ (example_env "a", example_body 1 10 90 40);
    (example_env "b", incomplete_body);
    (example_env "c", example_body 1 30 110 20) ].

End Aggregator.

(* ===================================================================== *)
(** ** Transfer service: the download operation *)
(* ===================================================================== *)

Module Transfer.

Local Open Scope Z_scope.

(** *** [parseInt] on a query parameter

    [req.query.size] is a string, or [undefined] when the parameter is
    absent.  [parseInt] skips leading white space, reads an optional
    sign and an optional hexadecimal prefix, and takes the longest run
    of digits; it yields [NaN] ([None]) when that run is empty.  Only
    ASCII white space is recognised here, and the result is the exact
    integer (beyond 2^53 JavaScript would round it). *)

Definition code (c : ascii) : Z := Z.of_N (Ascii.N_of_ascii c).

Definition is_white_space (c : ascii) : bool :=
  let n := code c in
  ((9 <=? n) && (n <=? 13)) || (n =? 32).

Fixpoint trim_start (s : string) : string :=
  match s with
  | String c rest => if is_white_space c then trim_start rest else s
  | EmptyString => s
  end.

Definition digit_value (radix : Z) (c : ascii) : option Z :=
  let n := code c in
  let d := if (48 <=? n) && (n <=? 57) then Some (n - 48)
           else if (97 <=? n) && (n <=? 122) then Some (n - 87)
           else if (65 <=? n) && (n <=? 90) then Some (n - 55)
           else None in
  match d with
  | Some v => if v <? radix then Some v else None
  | None => None
  end.

(** The value of the longest prefix of digits, [acc] so far. *)
Fixpoint digits (radix : Z) (s : string) (acc : option Z) : option Z :=
  match s with
  | String c rest =>
    match digit_value radix c with
    | Some d => digits radix rest (Some (default 0 acc * radix + d))
    | None => acc
    end
  | EmptyString => acc
  end.

Definition parseInt_string (s : string) : option Z :=
  let s := trim_start s in
  let '(sign, s) :=
    match s with
    | String "-" rest => (-1, rest)
    | String "+" rest => (1, rest)
    | _ => (1, s)
    end in
  let '(radix, s) :=
    match s with
    | String "0" (String "x" rest) => (16, rest)
    | String "0" (String "X" rest) => (16, rest)
    | _ => (10, s)
    end in
  (fun m => sign * m) <$> digits radix s None.

Definition parseInt (v : option string) : option Z :=
  match v with
  | Some s => parseInt_string s
  | None => None
  end.

(** [x || d] on a number: [NaN] and zero are falsy. *)
Definition or_default (x : option Z) (d : Z) : Z :=
  match x with
  | Some n => if n =? 0 then d else n
  | None => d
  end.

Definition DEFAULT_SIZE : Z := 10 * 1024 * 1024.
Definition MAX_SIZE : Z := 100 * 1024 * 1024.

(** test server:
    [let size = parseInt(req.query.size) || 10 * 1024 * 1024;
     if (size > 100 * 1024 * 1024) size = 100 * 1024 * 1024;] *)
Definition requested_size (q : option string) : Z :=
  let size := or_default (parseInt q) DEFAULT_SIZE in
  if size >? MAX_SIZE then MAX_SIZE else size.

(** regional worker:
    [Math.min(parseInt(req.query.size) || 10 * 1024 * 1024,
              100 * 1024 * 1024)] *)
Definition worker_requested_size (q : option string) : Z :=
  Z.min (or_default (parseInt q) DEFAULT_SIZE) MAX_SIZE.

(** *** Streaming

    What the transport does at each step is an input: the result of
    the next [res.write], or the request's ['close'] event arriving
    before the pending call of [sendChunk] runs.  [res.write] queues the
    chunk it is given in either case; [false] only asks the caller to
    wait for ['drain'] before writing more.  After a flushed write the
    pending call is the one given to [setImmediate], which runs whether
    or not the request has closed.  After a queued write it is the
    listener of ['drain'], and a response whose request has closed
    never drains: that listener is never called. *)
Inductive Signal :=
| WriteFlushed      (* res.write(chunk) returned true *)
| WriteQueued       (* res.write(chunk) returned false; 'drain' follows *)
| Closed.           (* the 'close' event of the request *)

(** A byte buffer, known by its length: the filler bytes are random. *)
Record Buffer := mkBuffer { byteLength : Z }.

Definition chunkSize : Z := 64 * 1024.

(** [generateRandomData(size)]. *)
Definition generateRandomData (size : Z) : Buffer := mkBuffer size.

(** The state of one download: [bytesSent], whether [connectionId] is
    still in [activeConnections], the chunks handed to [res.write] in
    order, and whether [res.end()] ran. *)
Record Stream := mkStream {
  bytesSent : Z;
  active : bool;
  written : list Buffer;
  ended : bool
}.

(** [sendChunk] of the test server, re-entered through [setImmediate],
    the direct final call, or ['drain'], as long as signals remain. *)
Fixpoint sendChunk (size : Z) (signals : list Signal) (st : Stream) : Stream :=
  if (bytesSent st >=? size) || negb (active st) then
    mkStream (bytesSent st) false (written st) true
  else
    let remaining := size - bytesSent st in
    let currentChunkSize := Z.min chunkSize remaining in
    let chunk := generateRandomData currentChunkSize in
    match signals with
    | [] => st
    | WriteFlushed :: rest =>
      sendChunk size rest
        (mkStream (bytesSent st + currentChunkSize) (active st)
                  (written st ++ [chunk]) (ended st))
    | WriteQueued :: rest =>
      (* res.once('drain', sendChunk) *)
      let waiting :=
        mkStream (bytesSent st) (active st) (written st ++ [chunk])
                 (ended st) in
      match rest with
      | Closed :: _ =>
        (* the close handler deletes the id; nothing calls sendChunk *)
        mkStream (bytesSent waiting) false (written waiting) (ended waiting)
      | _ => sendChunk size rest waiting
      end
    | Closed :: rest =>
      sendChunk size rest
        (mkStream (bytesSent st) false (written st) (ended st))
    end.

Record Response := mkResponse {
  status : Z;
  contentLength : Z;
  stream : Stream
}.

(** [GET /download] of the test server. *)
Definition download (q : option string) (signals : list Signal) : Response :=
  let size := requested_size q in
  mkResponse 200 size (sendChunk size signals (mkStream 0 true [] false)).

(** The number of body bytes handed to the transport. *)
Definition body_length (chunks : list Buffer) : Z :=
  fold_right (fun b acc => byteLength b + acc) 0 chunks.

(** *** The regional worker *)

Definition worker_chunkSize : Z := 256 * 1024.

(** [data.slice(start, end)] for indices that are not negative. *)
Definition slice (data : Buffer) (start end_ : Z) : Buffer :=
  let len := byteLength data in
  mkBuffer (Z.max 0 (Z.min end_ len - Z.min start len)).

(** [getTestData(size)] on [testDataCache]; [Buffer.alloc] throws a
    [RangeError] on a negative size ([None]), before anything is cached. *)
Definition getTestData (cache : gmap Z Buffer) (size : Z)
  : gmap Z Buffer * option Buffer :=
  match cache !! size with
  | Some data => (cache, Some data)
  | None =>
    if size <? 0 then (cache, None)
    else (<[size := mkBuffer size]> cache, Some (mkBuffer size))
  end.

(** The cache after a sequence of [getTestData] calls. *)
Definition cache_after (cache : gmap Z Buffer) (sizes : list Z)
  : gmap Z Buffer :=
  fold_left (fun c size => fst (getTestData c size)) sizes cache.

Record WorkerStream := mkWorkerStream {
  offset : Z;
  w_written : list Buffer;
  w_ended : bool
}.

(** [sendChunk] of the worker.  It has no disconnect test: after a
    close it goes on writing, unless it is waiting for ['drain']. *)
Fixpoint worker_sendChunk (data : Buffer) (size : Z) (signals : list Signal)
    (st : WorkerStream) : WorkerStream :=
  if offset st >=? size then
    mkWorkerStream (offset st) (w_written st) true
  else
    let end_ := Z.min (offset st + worker_chunkSize) size in
    let chunk := slice data (offset st) end_ in
    match signals with
    | [] => st
    | WriteFlushed :: rest =>
      worker_sendChunk data size rest
        (mkWorkerStream end_ (w_written st ++ [chunk]) (w_ended st))
    | WriteQueued :: rest =>
      (* res.once('drain', sendChunk) *)
      let waiting :=
        mkWorkerStream (offset st) (w_written st ++ [chunk]) (w_ended st) in
      match rest with
      | Closed :: _ => waiting
      | _ => worker_sendChunk data size rest waiting
      end
    | Closed :: rest => worker_sendChunk data size rest st
    end.

Inductive WorkerReply :=
| Streamed (contentLength : Z) (st : WorkerStream)
| Thrown.          (* the exception leaves the handler *)

(** [GET /download] of the worker. *)
Definition worker_download (cache : gmap Z Buffer) (q : option string)
    (signals : list Signal) : gmap Z Buffer * WorkerReply :=
  let size := worker_requested_size q in
  match getTestData cache size with
  | (cache', Some data) =>
    (cache',
     Streamed size
       (worker_sendChunk data size signals (mkWorkerStream 0 [] false)))
  | (cache', None) => (cache', Thrown)
  end.

(** The size rule in the specification's words: anything that is not a
    parseable non-negative integer gives the default, zero is
    honoured, and the ceiling clamps. *)
Definition spec_requested_size (q : option string) : Z :=
  match parseInt q with
  | Some n => if n <? 0 then DEFAULT_SIZE else Z.min n MAX_SIZE
  | None => DEFAULT_SIZE
  end.

(** Bytes handed to the transport beyond those the handler has counted. *)
Definition excess (st : Stream) : Z :=
  body_length (written st) - bytesSent st.

(** The bound the specification asks of the memoization cache. *)
Definition cache_bounded : Prop :=
  exists cap : nat, forall sizes : list Z,
    (size (cache_after ∅ sizes) <= cap)%nat.

(** The worker's cache after a sequence of download requests, each with
    its query parameter and its transport signals. *)
Definition worker_cache_after (cache : gmap Z Buffer)
    (reqs : list (option string * list Signal)) : gmap Z Buffer :=
  fold_left (fun c req => fst (worker_download c (fst req) (snd req)))
    reqs cache.

End Transfer.

(* ===================================================================== *)
(** ** Measurement orchestrator (frontend/script.js, class SpeedTest) *)
(* ===================================================================== *)

Module Orchestrator.

Import Quality.
Local Open Scope Z_scope.

(** *** Download accounting: [xhr.onprogress] in [runDownloadTest] *)

(** A progress event of one of the parallel requests; [loaded] is the
    number of bytes that request has received so far. *)
Record ProgressEvent := mkProgress {
  xhr : nat;
  lengthComputable : bool;
  loaded : Z
}.

(** The two variables the handler updates: the phase's local
    [totalBytes] and the object's [this.loadedBytes], which all four
    handlers share. *)
Record Counters := mkCounters {
  totalBytes : Z;
  loadedBytes : Z
}.

(** [x || 0] on a number that is never [NaN]. *)
Definition or_zero (x : Z) : Z := if x =? 0 then 0 else x.

Definition onprogress (c : Counters) (event : ProgressEvent) : Counters :=
  if lengthComputable event then
    mkCounters (totalBytes c + (loaded event - or_zero (loadedBytes c)))
               (loaded event)
  else c.

Definition after_progress (c : Counters) (events : list ProgressEvent)
  : Counters :=
  fold_left onprogress events c.

(** [const connections = 4]. *)
Definition connections : nat := 4.

(** Bytes received so far by request [i]: its latest report. *)
Definition received_by (i : nat) (events : list ProgressEvent) : Z :=
  fold_left (fun acc e => if (xhr e =? i)%nat then loaded e else acc) events 0.

(** Bytes received so far by all requests of the phase. *)
Definition received (events : list ProgressEvent) : Z :=
  fold_right (fun i acc => received_by i events + acc) 0 (seq 0 connections).

(** [(totalBytes * 8) / (elapsed * 1000)], in Mbps, for [elapsed] > 0
    milliseconds. *)
Definition speedMbps (totalBytes : Z) (elapsed : Q) : Q :=
  ((inject_Z totalBytes * 8) / (elapsed * 1000))%Q.

(** Each request reports sizes that are not negative and do not shrink. *)
Fixpoint monotone_reports (last : nat -> Z) (events : list ProgressEvent)
  : bool :=
  match events with
  | [] => true
  | e :: rest =>
    (last (xhr e) <=? loaded e) && (xhr e <? connections)%nat
    && monotone_reports
         (fun i => if (i =? xhr e)%nat then loaded e else last i) rest
  end.

(** Five reports of 64 KiB steps: each request once, then the first
    again. *)
Definition example_reports : list ProgressEvent :=
  [ mkProgress 0 true 65536; mkProgress 1 true 65536;
    mkProgress 2 true 65536; mkProgress 3 true 65536;
    mkProgress 0 true 131072 ].

(** *** The run: [startTest], [stopTest] and the phases *)

Inductive XhrState := Open | Done | Aborted.

(** Where a run is suspended. *)
Inductive Pc := AwaitPing | AwaitDownload | AwaitUpload | Finished | Threw.

Record Run := mkRun {
  testId : string;
  pc : Pc;
  counters : Z;              (* the phase's local [totalBytes] *)
  requests : list nat        (* the XMLHttpRequests the phase created *)
}.

(** The text of [#testPhase], as [updateProgress] sets it. *)
Inductive Phase :=
| Ready
| TestingPing
| TestingDownload
| Downloading (bytes : Z)
| TestingUpload
| Uploading (bytes : Z)
| TestComplete
| TestFailed
| TestStopped.

(** An element of the [speedtest_history] array in [localStorage], and
    the body posted to [/api/save-results]. *)
Record HistoryEntry := mkHistoryEntry {
  h_id : string;
  h_timestamp : string;
  h_results : TestResults
}.

Record SpeedTest := mkSpeedTest {
  isTesting : bool;                     (* this.config.isTesting *)
  currentTest : option nat;             (* this.currentTest *)
  testResults : TestResults;            (* this.testResults *)
  pingTimes : list Q;                   (* this.pingTimes *)
  shared_loadedBytes : Z;               (* this.loadedBytes *)
  phase : Phase;
  xhrs : list (nat * XhrState);         (* every request created so far *)
  runs : list Run;                      (* activations of [startTest] *)
  history : list HistoryEntry;          (* localStorage *)
  posted : list HistoryEntry            (* sent to the result aggregator *)
}.

Definition zero_results : TestResults := mkTestResults 0 0 0 0 0.

(** The constructor, [currentTest = null] included. *)
Definition initial (stored : list HistoryEntry) : SpeedTest :=
  mkSpeedTest false None zero_results [] 0 Ready [] [] stored [].

(** What the browser delivers to the object. *)
Inductive DownloadOutcome := AllLoaded | Deadline | DownloadError.
Inductive UploadOutcome := UploadLoaded | UploadDeadline | UploadError.

Inductive Event :=
| Click (fresh : string)
    (* the start/stop button; [fresh] is the id a new run would get *)
| PingSettled (run : string) (pings : list Q)
    (* the probe loop of [runPingTest] is over, with these samples *)
| DownloadProgress (run : string) (e : ProgressEvent)
| DownloadSettled (run : string) (o : DownloadOutcome) (elapsed : Q)
    (* the race of [runDownloadTest] is decided *)
| UploadProgress (run : string) (bytes : Z)
| UploadSettled (run : string) (o : UploadOutcome) (elapsed : Q)
    (random : Q) (clock : string).
    (* the promise of [runUploadTest] is settled; [random] and [clock]
       are the next [Math.random()] and [new Date()] *)

(** [xhr.abort()]. *)
Definition abort (x : nat) (table : list (nat * XhrState))
  : list (nat * XhrState) :=
  map (fun entry => if (fst entry =? x)%nat
                    then (fst entry, match snd entry with
                                     | Open => Aborted
                                     | other => other
                                     end)
                    else entry) table.

Definition mark (st : XhrState) (xs : list nat)
    (table : list (nat * XhrState)) : list (nat * XhrState) :=
  map (fun entry => if existsb (Nat.eqb (fst entry)) xs
                    then (fst entry, st) else entry) table.

(** [stopTest()]. *)
Definition stopTest (s : SpeedTest) : SpeedTest :=
  let table := match currentTest s with
               | Some x => abort x (xhrs s)
               | None => xhrs s
               end in
  mkSpeedTest false (currentTest s) (testResults s) (pingTimes s)
    (shared_loadedBytes s) TestStopped table (runs s) (history s) (posted s).

(** [startTest()] up to its first [await]: either the stop branch, or
    the flag, [resetTest()] and the entry into [runPingTest()]. *)
Definition startTest (fresh : string) (s : SpeedTest) : SpeedTest :=
  if isTesting s then stopTest s
  else
    mkSpeedTest true (currentTest s) zero_results [] 0 TestingPing (xhrs s)
      (runs s ++ [mkRun fresh AwaitPing 0 []]) (history s) (posted s).

Definition reduce_sum (l : list Q) : Q :=
  match l with
  | [] => 0%Q
  | x :: rest => fold_left Qplus rest x
  end.

Definition average (l : list Q) : Q :=
  (reduce_sum l / inject_Z (Z.of_nat (length l)))%Q.

Fixpoint jitters (times : list Q) : list Q :=
  match times with
  | a :: (b :: _) as rest => Qabs (b - a) :: jitters rest
  | _ => []
  end.

(** [calculateJitter()]. *)
Definition calculateJitter (random : Q) (times : list Q) (r : TestResults)
  : TestResults :=
  if (length times <? 2)%nat then r
  else mkTestResults (ping r) (average (jitters times)) (download r)
         (upload r) (random * 0.5)%Q.

(** [saveResults(testId)]: newest first, at most 50 kept. *)
Definition saveResults (id : string) (clock : string) (r : TestResults)
    (stored : list HistoryEntry) : list HistoryEntry :=
  let entry := mkHistoryEntry id clock r in
  let history := entry :: stored in
  if (50 <? length history)%nat then take 50 history else history.

Definition set_run (id : string) (f : Run -> Run) (rs : list Run) : list Run :=
  map (fun r => if String.eqb (testId r) id then f r else r) rs.

Definition find_run (id : string) (at_ : Pc) (rs : list Run) : option Run :=
  find (fun r => String.eqb (testId r) id
                 && match pc r, at_ with
                    | AwaitPing, AwaitPing
                    | AwaitDownload, AwaitDownload
                    | AwaitUpload, AwaitUpload => true
                    | _, _ => false
                    end) rs.

Definition fresh_xhrs (table : list (nat * XhrState)) (n : nat) : list nat :=
  seq (length table) n.

(** One delivery.  The [catch] and [finally] blocks of [startTest] are
    part of the step that throws or completes. *)
Definition step (s : SpeedTest) (ev : Event) : SpeedTest :=
  match ev with
  | Click fresh => startTest fresh s
  | PingSettled id pings =>
    match find_run id AwaitPing (runs s) with
    | None => s
    | Some _ =>
      match pings with
      | [] =>
        (* throw new Error('Ping test failed') *)
        mkSpeedTest false (currentTest s) (testResults s) (pingTimes s)
          (shared_loadedBytes s) TestFailed (xhrs s)
          (set_run id (fun r => mkRun (testId r) Threw (counters r)
                                      (requests r)) (runs s))
          (history s) (posted s)
      | _ =>
        let r := testResults s in
        let results := mkTestResults (average pings) (jitter r) (download r)
                         (upload r) (packetLoss r) in
        let created := fresh_xhrs (xhrs s) connections in
        mkSpeedTest (isTesting s) (currentTest s) results pings
          (shared_loadedBytes s) TestingDownload
          (xhrs s ++ map (fun x => (x, Open)) created)
          (set_run id (fun r => mkRun (testId r) AwaitDownload 0 created)
                   (runs s))
          (history s) (posted s)
      end
    end
  | DownloadProgress id e =>
    match find_run id AwaitDownload (runs s) with
    | None => s
    | Some run =>
      let c := onprogress
                 (mkCounters (counters run) (shared_loadedBytes s)) e in
      mkSpeedTest (isTesting s) (currentTest s) (testResults s) (pingTimes s)
        (loadedBytes c)
        (if lengthComputable e then Downloading (totalBytes c) else phase s)
        (xhrs s)
        (set_run id (fun r => mkRun (testId r) (pc r) (totalBytes c)
                                    (requests r)) (runs s))
        (history s) (posted s)
    end
  | DownloadSettled id o elapsed =>
    match find_run id AwaitDownload (runs s) with
    | None => s
    | Some run =>
      match o with
      | DownloadError =>
        mkSpeedTest false (currentTest s) (testResults s) (pingTimes s)
          (shared_loadedBytes s) TestFailed (xhrs s)
          (set_run id (fun r => mkRun (testId r) Threw (counters r)
                                      (requests r)) (runs s))
          (history s) (posted s)
      | _ =>
        let r := testResults s in
        let results := mkTestResults (ping r) (jitter r)
                         (speedMbps (counters run) elapsed)
                         (upload r) (packetLoss r) in
        let table := match o with
                     | AllLoaded => mark Done (requests run) (xhrs s)
                     | _ => xhrs s
                     end in
        let created := fresh_xhrs table 1 in
        mkSpeedTest (isTesting s) (currentTest s) results (pingTimes s)
          (shared_loadedBytes s) TestingUpload
          (table ++ map (fun x => (x, Open)) created)
          (set_run id (fun r => mkRun (testId r) AwaitUpload 0 created)
                   (runs s))
          (history s) (posted s)
      end
    end
  | UploadProgress id bytes =>
    match find_run id AwaitUpload (runs s) with
    | None => s
    | Some _ =>
      mkSpeedTest (isTesting s) (currentTest s) (testResults s) (pingTimes s)
        (shared_loadedBytes s) (Uploading bytes) (xhrs s)
        (set_run id (fun r => mkRun (testId r) (pc r) bytes (requests r))
                 (runs s))
        (history s) (posted s)
    end
  | UploadSettled id o elapsed random clock =>
    match find_run id AwaitUpload (runs s) with
    | None => s
    | Some run =>
      match o with
      | UploadError =>
        mkSpeedTest false (currentTest s) (testResults s) (pingTimes s)
          (shared_loadedBytes s) TestFailed (xhrs s)
          (set_run id (fun r => mkRun (testId r) Threw (counters r)
                                      (requests r)) (runs s))
          (history s) (posted s)
      | _ =>
        let r := testResults s in
        let uploaded := mkTestResults (ping r) (jitter r) (download r)
                          (speedMbps (counters run) elapsed)
                          (packetLoss r) in
        let table := match o with
                     | UploadLoaded => mark Done (requests run) (xhrs s)
                     | _ => mark Aborted (requests run) (xhrs s)
                     end in
        let results := calculateJitter random (pingTimes s) uploaded in
        let entry := mkHistoryEntry id clock results in
        mkSpeedTest false (currentTest s) results (pingTimes s)
          (shared_loadedBytes s) TestComplete table
          (set_run id (fun r => mkRun (testId r) Finished (counters r)
                                      (requests r)) (runs s))
          (saveResults id clock results (history s))
          (posted s ++ [entry])
      end
    end
  end.

Definition deliver (s : SpeedTest) (events : list Event) : SpeedTest :=
  fold_left step events s.

Definition is_aborted (st : XhrState) : bool :=
  match st with Aborted => true | _ => false end.

Definition is_open (st : XhrState) : bool :=
  match st with Open => true | _ => false end.

(** The requests that were aborted, and those still in flight. *)
Definition aborted (s : SpeedTest) : list nat :=
  map fst (List.filter (fun entry => is_aborted (snd entry)) (xhrs s)).

Definition in_flight (s : SpeedTest) : list nat :=
  map fst (List.filter (fun entry => is_open (snd entry)) (xhrs s)).

(** A run that is stopped by a second click while its four download
    requests are in flight, and what the browser delivers afterwards. *)
Definition until_stop : list Event :=
  [ Click "TEST_1";
    PingSettled "TEST_1" [20; 24; 22]%Q;
    DownloadProgress "TEST_1" (mkProgress 0 true 65536);
    Click "TEST_2" ].

Definition after_stop : list Event :=
  [ DownloadProgress "TEST_1" (mkProgress 1 true 131072);
    DownloadSettled "TEST_1" AllLoaded 8000%Q;
    UploadProgress "TEST_1" 26214400;
    UploadSettled "TEST_1" UploadLoaded 9000%Q 0.2%Q
      "2024-01-01T00:00:17.000Z" ].

End Orchestrator.

(* ===================================================================== *)
(** ** [Array.prototype.sort] *)
(* ===================================================================== *)

Module Js.

(** The sort of the language is stable, and for a comparator that is a
    total preorder every stable sort returns the same array: the one
    insertion builds.  [le a b] stands for [comparator(a, b) <= 0]. *)
Section Sort.

Context {A : Type}.
Variable le : A -> A -> bool.

Fixpoint insert (x : A) (l : list A) : list A :=
  match l with
  | [] => [x]
  | y :: rest => if le x y then x :: l else y :: insert x rest
  end.

Definition sort (l : list A) : list A := fold_right insert [] l.

End Sort.

End Js.

(* ===================================================================== *)
(** ** Directory statistics and connection counters (backend/server.js) *)
(* ===================================================================== *)

Module Directory.

Import Selector.

(** *** [GET /api/server-stats] *)

(** The [stats] property of an entry of the snapshot: the stored
    object, or the literal of zeros, which has no [lastUpdated]. *)
Record StatsView := mkStatsView {
  v_totalTests : Z;
  v_avgPing : Q;
  v_avgDownload : Q;
  v_avgUpload : Q;
  v_lastUpdated : option string
}.

Definition view (held : option Aggregator.ServerStats) : StatsView :=
  match held with
  | Some s =>
    mkStatsView (Aggregator.totalTests s) (Aggregator.avgPing s)
      (Aggregator.avgDownload s) (Aggregator.avgUpload s)
      (Some (Aggregator.lastUpdated s))
  | None => mkStatsView 0 0 0 0 None
  end.

(** The [stats] object of the reply: its keys are the positions of
    [testServers.entries()], so it is a list in directory order. *)
Definition server_stats (dir : list TestServer) (st : Aggregator.Store)
  : list (TestServer * StatsView) :=
  map (fun server =>
         (server, view (Aggregator.serverStats st !! id server))) dir.

(** *** The proxy to the test servers: [onProxyReq] *)



Section Proxy.

(** [id == serverId] for a [serverId] given as a non-empty string of the
    query: the loose comparison of a number with a string. *)
Variable loose_eq : Z -> string -> bool.








End Proxy.



End Directory.

(* ===================================================================== *)
(** ** Transfer service: the upload operation *)
(* ===================================================================== *)

Module Upload.

Local Open Scope Z_scope.

(** What the request stream delivers to the handler. *)
Inductive ReqEvent :=
| OnData (chunk : list Byte.byte)
| OnEnd (duration : Z)      (* [Date.now() - startTime] when it fires *)
| OnClose
| OnError.

(** [(bytes * 8) / (duration / 1000) / 1000000]; a zero duration gives
    an infinite or undefined number, which JSON renders as [null]. *)
Definition speedMbps (bytes duration : Z) : option Q :=
  if duration =? 0 then None
  else Some (inject_Z bytes * 8 / (inject_Z duration / 1000) / 1000000)%Q.

Inductive UploadReply :=
| Uploaded (bytesReceived duration : Z) (speed : option Q)   (* 200 *)
| UploadFailed.                                               (* 500 *)

(** The test server's handler state: [bytesReceived], the set
    [activeConnections], the replies sent on this response (it has sent
    its headers once there is one), and whether a handler threw. *)
Record UploadState := mkUploadState {
  bytesReceived : Z;
  activeConnections : gset string;
  sent : list UploadReply;
  threw : bool
}.

(** The body of [app.post('/upload', ...)] up to the registrations. *)
Definition upload_open (connectionId : string) (conns : gset string)
  : UploadState :=
  mkUploadState 0 ({[connectionId]} ∪ conns) [] false.

(** The four handlers.  [res.json] on a response whose headers are sent
    throws. *)
Definition upload_event (connectionId : string) (st : UploadState)
    (ev : ReqEvent) : UploadState :=
  match ev with
  | OnData chunk =>
    mkUploadState (bytesReceived st + Z.of_nat (length chunk))
      (activeConnections st) (sent st) (threw st)
  | OnEnd duration =>
    let conns := activeConnections st ∖ {[connectionId]} in
    match sent st with
    | [] =>
      mkUploadState (bytesReceived st) conns
        [Uploaded (bytesReceived st) duration
           (speedMbps (bytesReceived st) duration)]
        (threw st)
    | _ => mkUploadState (bytesReceived st) conns (sent st) true
    end
  | OnClose =>
    mkUploadState (bytesReceived st)
      (activeConnections st ∖ {[connectionId]}) (sent st) (threw st)
  | OnError =>
    let conns := activeConnections st ∖ {[connectionId]} in
    match sent st with
    | [] => mkUploadState (bytesReceived st) conns [UploadFailed] (threw st)
    | _ => mkUploadState (bytesReceived st) conns (sent st) (threw st)
    end
  end.

Definition upload (connectionId : string) (conns : gset string)
    (events : list ReqEvent) : UploadState :=
  fold_left (upload_event connectionId) events
    (upload_open connectionId conns).

(** The regional worker counts the same way and replies on ['end'];
    it registers no other handler. *)
Record WorkerUpload := mkWorkerUpload {
  received : Z;
  w_sent : list UploadReply;
  w_threw : bool
}.

Definition worker_upload_event (st : WorkerUpload) (ev : ReqEvent)
  : WorkerUpload :=
  match ev with
  | OnData chunk =>
    mkWorkerUpload (received st + Z.of_nat (length chunk)) (w_sent st)
      (w_threw st)
  | OnEnd duration =>
    match w_sent st with
    | [] =>
      mkWorkerUpload (received st)
        [Uploaded (received st) duration (speedMbps (received st) duration)]
        (w_threw st)
    | _ => mkWorkerUpload (received st) (w_sent st) true
    end
  | OnClose | OnError => st
  end.

Definition worker_upload (events : list ReqEvent) : WorkerUpload :=
  fold_left worker_upload_event events (mkWorkerUpload 0 [] false).

(** The events of a body that arrives whole, in the given chunks, at
    listeners that are registered before the stream is read. *)
Definition whole_body (chunks : list (list Byte.byte)) (duration : Z)
  : list ReqEvent :=
  map OnData chunks ++ [OnEnd duration].

(** [app.use(express.json({ limit: '100mb' }))] of the test server runs
    before the route.  What it does with a request is an input. *)
Inductive BodyParser :=
| Skipped     (* no body, or a Content-Type other than JSON, as the
                 client's Blob has: the stream is left untouched *)
| Consumed    (* a JSON body: read to its end and parsed, then next() *)
| Refused.    (* malformed JSON or a body above the limit: next(err),
                 the route is not entered *)

(** What the listeners of the route receive for a body that arrives
    whole.  After [Consumed] the stream has ended before the listeners
    are registered: they see neither ['data'] nor ['end'], only the
    ['close'] of the request if it comes. *)
Definition delivery (parser : BodyParser) (chunks : list (list Byte.byte))
    (duration : Z) (closes : bool) : option (list ReqEvent) :=
  let close := if closes then [OnClose] else [] in
  match parser with
  | Skipped => Some (whole_body chunks duration ++ close)
  | Consumed => Some close
  | Refused => None
  end.

(** [POST /upload] of the test server behind its middleware; [None]
    when the route is not entered. *)
Definition post_upload (parser : BodyParser) (connectionId : string)
    (conns : gset string) (chunks : list (list Byte.byte)) (duration : Z)
    (closes : bool) : option UploadState :=
  upload connectionId conns <$> delivery parser chunks duration closes.

(** The events whose handler removes the connection. *)
Definition releases (ev : ReqEvent) : bool :=
  match ev with
  | OnData _ => false
  | OnEnd _ | OnClose | OnError => true
  end.

End Upload.

(* ===================================================================== *)
(** ** Transfer service: what a download keeps true *)
(* ===================================================================== *)

Module Streaming.

Import Transfer.
Local Open Scope Z_scope.

(** The test server's stream: the count stays within the size, every
    chunk written is non-empty and at most [chunkSize] long, and a
    stream that ended has released its connection. *)
Definition stream_ok (size : Z) (st : Stream) : Prop :=
  0 <= bytesSent st <= Z.max 0 size
  /\ Forall (fun b => 0 < byteLength b <= chunkSize) (written st)
  /\ (ended st = true -> active st = false).

(** The worker's stream, reading from a buffer of [size] bytes. *)
Definition worker_stream_ok (size : Z) (st : WorkerStream) : Prop :=
  0 <= offset st <= Z.max 0 size
  /\ Forall (fun b => 0 < byteLength b <= worker_chunkSize) (w_written st).

(** The handler's pending call is the listener of ['drain']: the last
    thing the transport did was to queue a write. *)
Definition awaits_drain (signals : list Signal) : bool :=
  match last signals with
  | Some WriteQueued => true
  | _ => false
  end.

End Streaming.

(* ===================================================================== *)
(** ** Worker pool: the master branch of the regional server *)
(* ===================================================================== *)

Module Pool.

Local Open Scope nat_scope.

(** The workers alive, oldest first, and the id the next fork gets
    (the cluster numbers its workers from 1 and never reuses an id). *)
Record Cluster := mkCluster {
  workers : list nat;
  nextId : nat
}.

(** [cluster.fork()]. *)
Definition fork (c : Cluster) : Cluster :=
  mkCluster (workers c ++ [nextId c]) (S (nextId c)).

(** [for (let i = 0; i < Math.min(numCPUs, 4); i++) cluster.fork();] *)
Definition start (numCPUs : nat) : Cluster :=
  Nat.iter (Nat.min numCPUs 4) fork (mkCluster [] 1).

(** The death of worker [w], then the ['exit'] handler: one fork. *)
Definition on_exit (w : nat) (c : Cluster) : Cluster :=
  fork (mkCluster (filter (fun x => x <> w) (workers c)) (nextId c)).

(** One step of the pool: a live worker dies and is replaced. *)
Inductive pool_step : Cluster -> Cluster -> Prop :=
| Worker_exit w c : w ∈ workers c -> pool_step c (on_exit w c).

(** The pools reachable on a machine with [numCPUs] cores, with the
    number of deaths so far. *)
Inductive pool_reachable (numCPUs : nat) : nat -> Cluster -> Prop :=
| Pool_started : pool_reachable numCPUs 0 (start numCPUs)
| Pool_next deaths c c' :
    pool_reachable numCPUs deaths c -> pool_step c c' ->
    pool_reachable numCPUs (S deaths) c'.

(** A pool of [size] workers after [deaths] replacements: the ids alive
    are distinct and all below the next id. *)
Definition pool_ok (size deaths : nat) (c : Cluster) : Prop :=
  length (workers c) = size
  /\ NoDup (workers c)
  /\ Forall (fun w => 1 <= w < nextId c) (workers c)
  /\ nextId c = 1 + size + deaths.

End Pool.

(* ===================================================================== *)
(** ** Client side: server list and latency probes (frontend/script.js) *)
(* ===================================================================== *)

Module Client.

Import Quality.
Local Open Scope Z_scope.

(** An element of [this.config.testServers], as [loadServers] builds it. *)
Record Server := mkServer {
  id : Z;
  name : string;
  location : string;
  country : string;
  host : string;
  port : Z;
  distance : Q;
  latency : Q
}.

Definition set_latency (l : Q) (s : Server) : Server :=
  mkServer (id s) (name s) (location s) (country s) (host s) (port s)
    (distance s) l.

(** *** [selectBestServer] *)

(** [latency < bestLatency], where no best latency yet is [Infinity]. *)
Definition improves (latency : Q) (bestLatency : option Q) : bool :=
  match bestLatency with
  | None => true
  | Some best => Qgtb best latency
  end.

(** The loop over [testServers.slice(0, 5)], from position [i] on.
    [probe i] is what [testLatency] yields for the server at position
    [i]: a latency, or nothing when the promise is rejected.  The slice
    shares its objects with the list, so the latency assignment shows in
    the list; the result is the slice after the loop and [bestServer]. *)
Fixpoint probe_from (probe : nat -> option Q) (i : nat) (slice : list Server)
    (bestServer : option Server) (bestLatency : option Q)
  : list Server * option Server :=
  match slice with
  | [] => ([], bestServer)
  | server :: rest =>
    match probe i with
    | Some latency =>
      let server' := set_latency latency server in
      let '(rest', best) :=
        if improves latency bestLatency
        then probe_from probe (S i) rest (Some server') (Some latency)
        else probe_from probe (S i) rest bestServer bestLatency in
      (server' :: rest', best)
    | None =>
      let '(rest', best) :=
        probe_from probe (S i) rest bestServer bestLatency in
      (server :: rest', best)
    end
  end.

(** [selectBestServer()]: the list and [selectedServer] afterwards. *)
Definition selectBestServer (testServers : list Server)
    (selectedServer : option Server) (probe : nat -> option Q)
  : list Server * option Server :=
  match testServers with
  | [] => (testServers, selectedServer)
  | _ =>
    let '(probed, bestServer) :=
      probe_from probe 0 (take 5 testServers) None None in
    let testServers' := probed ++ drop 5 testServers in
    (testServers',
     match bestServer with
     | Some s => Some s
     | None => head testServers'
     end)
  end.

(** The server at position [k] after the probes: its latency is the one
    measured when it is among the first five and its probe succeeded. *)
Definition probed_entry (probe : nat -> option Q) (k : nat) (s : Server)
  : Server :=
  if (k <? 5)%nat then
    match probe k with
    | Some l => set_latency l s
    | None => s
    end
  else s.

(** [bestServer] and [bestLatency] agree. *)
Definition best_agrees (bestServer : option Server) (bestLatency : option Q)
  : Prop :=
  match bestServer, bestLatency with
  | Some s, Some l => latency s = l
  | None, None => True
  | _, _ => False
  end.

(** *** [filterServersByCountry] *)

(** The comparator handed to [sort]. *)
Definition country_first (countryCode : string) (a b : Server) : Z :=
  if String.eqb (country a) countryCode
     && negb (String.eqb (country b) countryCode) then -1
  else if negb (String.eqb (country a) countryCode)
          && String.eqb (country b) countryCode then 1
  else 0.

Definition filterServersByCountry (countryCode : string)
    (testServers : list Server) : list Server :=
  Js.sort (fun a b => country_first countryCode a b <=? 0) testServers.

(** Whether a server is of the given country. *)
Definition matching (countryCode : string) (s : Server) : bool :=
  String.eqb (country s) countryCode.

(** *** [runPingTest] *)




(** The events of a trace that start a run, and those that settle an
    upload without error, by run id. *)
Definition clicked (events : list Orchestrator.Event) : list string :=
  omap (fun ev => match ev with
                  | Orchestrator.Click fresh => Some fresh
                  | _ => None
                  end) events.

Definition uploads_settled (events : list Orchestrator.Event) : list string :=
  omap (fun ev => match ev with
                  | Orchestrator.UploadSettled run
                      Orchestrator.UploadLoaded _ _ _ => Some run
                  | Orchestrator.UploadSettled run
                      Orchestrator.UploadDeadline _ _ _ => Some run
                  | _ => None
                  end) events.

End Client.

(* ===================================================================== *)
(** * Properties *)
(* ===================================================================== *)

Module QualityFacts.
Import Quality.

Lemma Qgtb_spec (a b : Q) : Qgtb a b = true <-> (b < a)%Q.
Proof.
  unfold Qgtb. rewrite negb_true_iff.
  split.
  - intros H. apply Qnot_le_lt. intros Hle.
    apply Qle_bool_iff in Hle. congruence.
  - intros H. destruct (Qle_bool a b) eqn:E; [|reflexivity].
    apply Qle_bool_iff in E. exfalso. apply (Qlt_not_le _ _ H E).
Qed.

(** The boolean test of the code decides the order. *)
Lemma Qgtb_dec (a b : Q) :
  Qgtb a b = if Qlt_le_dec b a then true else false.
Proof.
  destruct (Qlt_le_dec b a) as [Hlt | Hle].
  - apply Qgtb_spec. exact Hlt.
  - destruct (Qgtb a b) eqn:E; [|reflexivity].
    apply Qgtb_spec in E. exfalso. apply (Qlt_not_le _ _ E Hle).
Qed.

Lemma labelOf_spec (s : Z) : spec_label s (labelOf s).
Proof.
  unfold labelOf.
  destruct (Z.geb_spec s 90); [constructor; lia|].
  destruct (Z.geb_spec s 80); [constructor; lia|].
  destruct (Z.geb_spec s 70); [constructor; lia|].
  destruct (Z.geb_spec s 60); constructor; lia.
Qed.

(** C8.  The quality score starts at 100, loses 30 for a ping above
    100 ms (else 15 above 50 ms), 20 for a jitter above 10 ms (else 10
    above 5 ms), 20 for a packet loss above 0.1 (else 10 above 0.05),
    and is mapped to Excellent / Good / Fair / Poor / Bad at the
    thresholds 90 / 80 / 70 / 60.  Ping 20, jitter 2, loss 0.01 scores
    100 (Excellent); ping 150, jitter 15, loss 0.2 scores 30 (Bad). *)
Theorem quality_score_matches_spec :
  (forall r : TestResults,
      signalScore r = spec_score (ping r) (jitter r) (packetLoss r)
      /\ spec_label (signalScore r) (estimateSignalQuality r))
  /\ (forall d u : Q,
         signalScore (mkTestResults 20 2 d u 0.01) = 100
         /\ estimateSignalQuality (mkTestResults 20 2 d u 0.01) = Excellent)
  /\ (forall d u : Q,
         signalScore (mkTestResults 150 15 d u 0.2) = 30
         /\ estimateSignalQuality (mkTestResults 150 15 d u 0.2) = Bad).
Proof.
  split; [|split].
  - intros r. split.
    + unfold signalScore, spec_score, spec_ping_penalty,
        spec_jitter_penalty, spec_loss_penalty.
      rewrite !Qgtb_dec.
      destruct (Qlt_le_dec 100 (ping r)), (Qlt_le_dec 50 (ping r)),
        (Qlt_le_dec 10 (jitter r)), (Qlt_le_dec 5 (jitter r)),
        (Qlt_le_dec 0.1 (packetLoss r)), (Qlt_le_dec 0.05 (packetLoss r));
        reflexivity.
    + apply labelOf_spec.
  - intros d u. split; reflexivity.
  - intros d u. split; reflexivity.
Qed.

End QualityFacts.

(* ===================================================================== *)
(** ** The order of binary64 numbers *)
(* ===================================================================== *)

Module Binary64Facts.

Import Binary64.
Local Open Scope float_scope.

Ltac compare_cases :=
  repeat match goal with
  | |- context [(?a ?= ?b)%Z] =>
    destruct (Z.compare_spec a b)
  | |- context [PosDef.Pos.compare_cont Eq ?a ?b] =>
    change (PosDef.Pos.compare_cont Eq a b) with (Pos.compare a b);
    destruct (Pos.compare_spec a b)
  end.

(** Case analysis on the numbers compared: zeros, infinities, [NaN] and
    finite numbers by sign, exponent and mantissa. *)
Ltac order_cases :=
  unfold SFltb, SFleb, SFeqb, SFcompare;
  repeat match goal with
  | x : spec_float |- _ => destruct x as [[|] | [|] | | [|] ? ?]
  end;
  try (intros; (reflexivity || discriminate));
  compare_cases; cbn [CompOpp];
  intros; try reflexivity; try discriminate; try (exfalso; lia).

Lemma SFltb_trans (x y z : spec_float) :
  SFltb x y = true -> SFltb y z = true -> SFltb x z = true.
Proof. order_cases. Qed.

Lemma SFltb_leb_trans (x y z : spec_float) :
  SFltb x y = true -> SFleb y z = true -> SFltb x z = true.
Proof. order_cases. Qed.

Lemma SFltb_leb (x y : spec_float) : SFltb x y = true -> SFleb x y = true.
Proof. order_cases. Qed.

Lemma SFnot_ltb (x y : spec_float) :
  SFltb x y = false -> SFeqb x x = true -> SFeqb y y = true ->
  SFleb y x = true.
Proof. order_cases. Qed.

Lemma SFltb_number (x y : spec_float) :
  SFltb x y = true -> SFeqb x x = true /\ SFeqb y y = true.
Proof. order_cases; split; order_cases. Qed.

Lemma SFeqb_nan (x y : spec_float) : SFeqb x x = false -> SFeqb x y = false.
Proof. order_cases. Qed.

(** [<] is transitive. *)
Lemma ltb_trans (x y z : float) :
  (x <? y) = true -> (y <? z) = true -> (x <? z) = true.
Proof. rewrite !FloatAxioms.ltb_spec. apply SFltb_trans. Qed.

Lemma ltb_leb_trans (x y z : float) :
  (x <? y) = true -> (y <=? z) = true -> (x <? z) = true.
Proof.
  rewrite !FloatAxioms.ltb_spec, FloatAxioms.leb_spec.
  apply SFltb_leb_trans.
Qed.

Lemma ltb_leb (x y : float) : (x <? y) = true -> (x <=? y) = true.
Proof.
  rewrite FloatAxioms.ltb_spec, FloatAxioms.leb_spec. apply SFltb_leb.
Qed.

(** Two numbers, neither of them [NaN], are comparable. *)
Lemma not_ltb_leb (x y : float) :
  (x <? y) = false -> is_nan x = false -> is_nan y = false ->
  (y <=? x) = true.
Proof.
  unfold is_nan.
  rewrite FloatAxioms.ltb_spec, FloatAxioms.leb_spec, !FloatAxioms.eqb_spec.
  intros Hlt Hx%negb_false_iff Hy%negb_false_iff.
  apply SFnot_ltb; assumption.
Qed.

(** [NaN] is below nothing and nothing is below it. *)
Lemma ltb_number (x y : float) :
  (x <? y) = true -> is_nan x = false /\ is_nan y = false.
Proof.
  unfold is_nan. rewrite FloatAxioms.ltb_spec, !FloatAxioms.eqb_spec.
  intros [Hx Hy]%SFltb_number. rewrite Hx, Hy. split; reflexivity.
Qed.

Lemma SFltb_asym (x y : spec_float) :
  SFltb x y = true -> SFltb y x = false.
Proof. order_cases. Qed.

Lemma SFleb_not_ltb (x y : spec_float) :
  SFleb x y = true -> SFltb y x = false.
Proof. order_cases. Qed.

Lemma SFleb_refl (x : spec_float) : SFeqb x x = true -> SFleb x x = true.
Proof. order_cases. Qed.

Lemma ltb_asym (x y : float) : (x <? y) = true -> (y <? x) = false.
Proof. rewrite !FloatAxioms.ltb_spec. apply SFltb_asym. Qed.

Lemma leb_not_ltb (x y : float) : (x <=? y) = true -> (y <? x) = false.
Proof.
  rewrite FloatAxioms.ltb_spec, FloatAxioms.leb_spec. apply SFleb_not_ltb.
Qed.

Lemma leb_refl (x : float) : is_nan x = false -> (x <=? x) = true.
Proof.
  unfold is_nan. rewrite FloatAxioms.leb_spec, FloatAxioms.eqb_spec.
  intros Hx%negb_false_iff. apply SFleb_refl. exact Hx.
Qed.

(** [NaN == y] is false for every [y], [NaN] included. *)
Lemma eqb_nan (x y : float) : is_nan x = true -> (x =? y) = false.
Proof.
  unfold is_nan. rewrite !FloatAxioms.eqb_spec.
  intros Hx%negb_true_iff. apply SFeqb_nan. exact Hx.
Qed.

Example Math_floor_examples :
  Math_floor 402.63312885728906 = 402
  /\ Math_floor 7 = 7
  /\ Math_floor 0.5 = 0
  /\ Math_floor (-0.5) = -1
  /\ Math_floor (-3.25) = -4
  /\ Math_floor infinity = infinity
  /\ is_nan (Math_floor nan) = true.
Proof. repeat split; reflexivity. Qed.

End Binary64Facts.

(* ===================================================================== *)
(** ** Selector *)
(* ===================================================================== *)

Module SelectorFacts.
Import Binary64 Selector Binary64Facts.
Local Open Scope float_scope.

Lemma is_online_true (s : TestServer) :
  is_online s = true <-> status s = online.
Proof. unfold is_online. destruct (status s); split; congruence. Qed.

Lemma is_online_false (s : TestServer) :
  is_online s = false <-> status s = offline.
Proof. unfold is_online. destruct (status s); split; congruence. Qed.

(** From the measured sines and cosines the arithmetic of the function
    gives [a = 1 + 2^-52], a negative [1 - a], and [NaN]. *)
Lemma near_antipode_distance (M : Engine) :
  rounds_as_measured M ->
  haversine_a M (-40.712800053) 105.994 40.7128 (-74.0060)
  = 1.0000000000000002
  /\ calculateDistance M (-40.712800053) 105.994 40.7128 (-74.0060) = nan.
Proof.
  intros (Hs1 & Hs2 & Hc1 & Hc2).
  assert (Ha : haversine_a M (-40.712800053) 105.994 40.7128 (-74.0060)
               = 1.0000000000000002).
  { unfold haversine_a. cbv zeta.
    change ((40.7128 - -40.712800053) * Math_PI / 180 / 2)
      with 0.7105724081684598.
    change ((-74.0060 - 105.994) * Math_PI / 180 / 2)
      with (-1.5707963267948966).
    change (-40.712800053 * Math_PI / 180) with (-0.7105724086309719).
    change (40.7128 * Math_PI / 180) with 0.7105724077059474.
    rewrite Hs1, Hs2, Hc1, Hc2. reflexivity. }
  split; [exact Ha|].
  unfold calculateDistance. cbv zeta. rewrite Ha. reflexivity.
Qed.

(** C6 fails.  Both points are valid, yet the distance from
    (-40.712800053, 105.994) to New York (40.7128, -74.0060) is [NaN]:
    the sum [a] is rounded to 1.0000000000000002 and [Math.sqrt(1 - a)]
    has a negative argument.  So [distance(A, B) == distance(B, A)] is
    false, whatever the distance back. *)
Theorem calculateDistance_not_a_number_near_antipode (M : Engine) :
  rounds_as_measured M ->
  let A := (-40.712800053, 105.994) in
  let B := (40.7128, -74.0060) in
  valid_coordinates A = true
  /\ valid_coordinates B = true
  /\ haversine_a M (fst A) (snd A) (fst B) (snd B) = 1.0000000000000002
  /\ is_nan (calculateDistance M (fst A) (snd A) (fst B) (snd B)) = true
  /\ (calculateDistance M (fst A) (snd A) (fst B) (snd B)
      =? calculateDistance M (fst B) (snd B) (fst A) (snd A)) = false.
Proof.
  intros Hm A B. subst A B. cbn [fst snd].
  destruct (near_antipode_distance M Hm) as [Ha Hd].
  split; [reflexivity|]. split; [reflexivity|]. split; [exact Ha|].
  rewrite Hd. split; [reflexivity|]. apply eqb_nan. reflexivity.
Qed.

Lemma calculateDistance_not_a_number_near_antipode_witness :
  is_nan (calculateDistance sampled (-40.712800053) 105.994
            40.7128 (-74.0060)) = true
  /\ (calculateDistance sampled (-40.712800053) 105.994 40.7128 (-74.0060)
      =? calculateDistance sampled 40.7128 (-74.0060)
           (-40.712800053) 105.994) = false.
Proof.
  refine (proj2 (proj2 (proj2
            (calculateDistance_not_a_number_near_antipode sampled _)))).
  repeat split; reflexivity.
Defined.

(** *** The selection loop *)

Section Scan.

Variable M : Engine.

(** The client's coordinates, fixed for one request. *)
Variables clat clon : float.

Local Abbreviation dist := (dist_to M clat clon).
Local Abbreviation cand := (candidate M clat clon).
Local Abbreviation inv := (scan_first M clat clon).

Lemma candidate_spec (s : TestServer) :
  cand s = true <-> is_online s = true /\ (dist s <? infinity) = true.
Proof. unfold candidate. apply andb_true_iff. Qed.

Lemma lookup_snoc_cases (seen : list TestServer) (server y : TestServer)
    (j : nat) :
  (seen ++ [server]) !! j = Some y ->
  ((j < length seen)%nat /\ seen !! j = Some y)
  \/ (j = length seen /\ y = server).
Proof.
  intros Hj. destruct (Nat.lt_ge_cases j (length seen)) as [Hlt | Hge].
  - left. split; [exact Hlt|]. rewrite lookup_app_l in Hj by exact Hlt.
    exact Hj.
  - right. rewrite lookup_app_r in Hj by exact Hge.
    destruct (j - length seen)%nat as [| k] eqn:Ek; cbn in Hj.
    + split; [lia | congruence].
    + destruct k; discriminate.
Qed.

Lemma scan_step_inv seen st server :
  inv seen st -> inv (seen ++ [server]) (scan_step M clat clon st server).
Proof.
  intros Hinv. unfold scan_step. fold (dist server).
  destruct st as [[sel|] minDistance]; cbn [snd].
  - destruct Hinv as (i & s & (Hi & Hcs & Hord) & -> & ->).
    pose proof (lookup_lt_Some _ _ _ Hi) as Hlen.
    apply candidate_spec in Hcs as Hs. destruct Hs as [Hon Hnum].
    destruct ((dist server <? dist s) && is_online server) eqn:E.
    + apply andb_true_iff in E as [Hlt Hon'].
      exists (length seen), server. split; [|split; reflexivity].
      split; [|split].
      * rewrite lookup_app_r by lia. rewrite Nat.sub_diag. reflexivity.
      * apply candidate_spec. split; [exact Hon'|].
        apply (ltb_trans _ (dist s)); assumption.
      * intros j y Hj Hcy.
        apply lookup_snoc_cases in Hj as [[Hjl Hj] | [-> ->]];
          [|split; intros; lia].
        split; [intros _ | intros; lia].
        destruct (Nat.lt_trichotomy j i) as [Hji | [-> | Hij]].
        -- apply (ltb_trans _ (dist s)); [exact Hlt|].
           apply (proj1 (Hord j y Hj Hcy)). exact Hji.
        -- assert (y = s) by congruence. subst y. exact Hlt.
        -- apply (ltb_leb_trans _ (dist s)); [exact Hlt|].
           apply (proj2 (Hord j y Hj Hcy)). exact Hij.
    + exists i, s. split; [|split; reflexivity].
      split; [|split].
      * rewrite lookup_app_l by exact Hlen. exact Hi.
      * exact Hcs.
      * intros j y Hj Hcy.
        apply lookup_snoc_cases in Hj as [[Hjl Hj] | [-> ->]];
          [apply Hord; assumption|].
        split; [intros; lia | intros _].
        apply candidate_spec in Hcy as [Hon' Hnum'].
        rewrite Hon', andb_true_r in E.
        apply not_ltb_leb; [exact E | |].
        -- apply (ltb_number _ _ Hnum').
        -- apply (ltb_number _ _ Hnum).
  - destruct Hinv as [-> Hnone].
    fold (candidate M clat clon server). rewrite andb_comm.
    fold (candidate M clat clon server).
    destruct (cand server) eqn:E.
    + exists (length seen), server. split; [|split; reflexivity].
      split; [|split].
      * rewrite lookup_app_r by lia. rewrite Nat.sub_diag. reflexivity.
      * exact E.
      * intros j y Hj Hcy.
        apply lookup_snoc_cases in Hj as [[Hjl Hj] | [-> ->]];
          [|split; intros; lia].
        apply list_elem_of_lookup_2, list_elem_of_In in Hj.
        rewrite (Hnone y Hj) in Hcy. discriminate.
    + split; [reflexivity|].
      intros y [Hy | [<- | []]]%in_app_or; [auto | exact E].
Qed.

Lemma scan_fold_inv dir : forall seen st,
  inv seen st -> inv (seen ++ dir) (fold_left (scan_step M clat clon) dir st).
Proof.
  induction dir as [| server dir IH]; intros seen st Hinv.
  - rewrite app_nil_r. exact Hinv.
  - cbn [fold_left].
    replace (seen ++ server :: dir) with ((seen ++ [server]) ++ dir)
      by (rewrite <- app_assoc; reflexivity).
    apply IH. apply scan_step_inv. exact Hinv.
Qed.

Lemma scan_correct dir : inv dir (scan M clat clon dir).
Proof.
  unfold scan. apply (scan_fold_inv dir [] (None, infinity)).
  split; [reflexivity | intros s []].
Qed.

End Scan.

Lemma simulated_latency_infinity : simulated_latency infinity = infinity.
Proof. reflexivity. Qed.

(** The first nearest entry is at minimal distance: no online entry is
    nearer, and it is at most as far as every online entry whose
    distance is a number. *)
Lemma first_nearest_minimal (M : Engine) (clat clon : float)
    (dir : list TestServer) (i : nat) (s s' : TestServer) :
  first_nearest M clat clon dir i s ->
  In s' dir ->
  status s' = online ->
  (dist_to M clat clon s' <? dist_to M clat clon s) = false
  /\ (is_nan (dist_to M clat clon s') = false ->
      (dist_to M clat clon s <=? dist_to M clat clon s') = true).
Proof.
  intros (Hi & Hcs & Hord) Hin Hon.
  apply candidate_spec in Hcs as Hs. destruct Hs as [_ Hnum].
  pose proof (ltb_number _ _ Hnum) as [Hs_number _].
  apply is_online_true in Hon.
  destruct (dist_to M clat clon s' <? infinity) eqn:Hnum'.
  - assert (Hc' : candidate M clat clon s' = true)
      by (apply candidate_spec; auto).
    apply list_elem_of_In, list_elem_of_lookup_1 in Hin as [j Hj].
    destruct (Hord j s' Hj Hc') as [Hbefore Hafter].
    destruct (Nat.lt_trichotomy j i) as [Hji | [-> | Hij]].
    + specialize (Hbefore Hji). split.
      * apply ltb_asym. exact Hbefore.
      * intros _. apply ltb_leb. exact Hbefore.
    + assert (s' = s) by congruence. subst s'. split.
      * apply leb_not_ltb, leb_refl. exact Hs_number.
      * intros _. apply leb_refl. exact Hs_number.
    + specialize (Hafter Hij). split.
      * apply leb_not_ltb. exact Hafter.
      * intros _. exact Hafter.
  - split.
    + destruct (dist_to M clat clon s' <? dist_to M clat clon s) eqn:E;
        [|reflexivity].
      rewrite (ltb_trans _ _ _ E Hnum) in Hnum'. discriminate.
    + intros Hnumber. apply ltb_leb.
      apply (ltb_leb_trans _ infinity); [exact Hnum|].
      apply not_ltb_leb; [exact Hnum' | exact Hnumber | reflexivity].
Qed.

(** C7.  Without resolvable client coordinates the optimal-server query
    answers with the first directory entry, the Primary Server of the
    registry, and leaves the directory alone.  With coordinates, and an
    online entry whose computed distance is a number, it answers with a
    copy of an online entry at minimal haversine distance [d] (Earth
    radius 6371): no online entry is nearer, and it is at most as far
    as every online entry whose distance is a number.  The copy carries
    the distance [d] and the latency floor(d * 0.1) + 10, it is
    otherwise the entry, and the directory is unchanged. *)
Theorem optimal_server_selects_primary_or_nearest (M : Engine) :
  (forall (dir : list TestServer) (geo : option GeoInfo),
      geo = None \/ geo = Some (mkGeo None) ->
      optimal_server M dir geo
      = (dir, Json (option_map (fun s => mkSelected s None) (head dir))))
  /\ (forall (p : Z) (geo : option GeoInfo),
         geo = None \/ geo = Some (mkGeo None) ->
         exists primary,
           head (testServers p) = Some primary
           /\ name primary = "Primary Server"%string
           /\ optimal_server M (testServers p) geo
              = (testServers p, Json (Some (mkSelected primary None))))
  /\ (forall (dir : list TestServer) (clat clon : float),
         existsb (candidate M clat clon) dir = true ->
         exists s reply d,
           In s dir
           /\ status s = online
           /\ (let a := haversine_a M clat clon
                          (lat (coordinates s)) (lon (coordinates s)) in
               d = 6371 * (2 * Math_atan2 M (Math_sqrt a) (Math_sqrt (1 - a))))
           /\ optimal_server M dir (Some (mkGeo (Some (clat, clon))))
              = (dir, Json (Some reply))
           /\ registry_fields (sel_server reply) = registry_fields s
           /\ sel_distance reply = Some d
           /\ latency (sel_server reply) = Some (Math_floor (d * 0.1) + 10)
           /\ forall s', In s' dir -> status s' = online ->
                (dist_to M clat clon s' <? d) = false
                /\ (is_nan (dist_to M clat clon s') = false ->
                    (d <=? dist_to M clat clon s') = true)).
Proof.
  split; [|split].
  - intros dir geo [-> | ->]; reflexivity.
  - intros p geo Hgeo. eexists. split; [reflexivity|]. split; [reflexivity|].
    destruct Hgeo as [-> | ->]; reflexivity.
  - intros dir clat clon Hex.
    apply existsb_exists in Hex as (s0 & Hin0 & Hc0).
    unfold optimal_server. cbn [ll].
    pose proof (scan_correct M clat clon dir) as Hinv.
    destruct (scan M clat clon dir) as [[sel|] minDistance].
    + destruct Hinv as (i & s & Hfirst & -> & ->).
      exists s. eexists. exists (dist_to M clat clon s).
      pose proof Hfirst as (Hi & Hcs & _).
      apply candidate_spec in Hcs as [Hon _]. apply is_online_true in Hon.
      split; [apply list_elem_of_In, (list_elem_of_lookup_2 _ i), Hi|].
      split; [exact Hon|]. split; [reflexivity|]. split; [reflexivity|].
      split; [reflexivity|]. split; [reflexivity|]. split; [reflexivity|].
      intros s' Hin' Hon'.
      apply (first_nearest_minimal M clat clon dir i s s' Hfirst Hin' Hon').
    + destruct Hinv as [_ Hnone]. rewrite (Hnone s0 Hin0) in Hc0.
      discriminate.
Qed.

(** The registry and a client at (-40.712800053, 105.994): the distance
    to New York is [NaN], and the answer is the nearest of the other
    three entries. *)
Lemma optimal_server_selects_primary_or_nearest_witness :
  (exists primary,
      head (testServers 3001) = Some primary
      /\ name primary = "Primary Server"%string
      /\ optimal_server sampled (testServers 3001) None
         = (testServers 3001, Json (Some (mkSelected primary None))))
  /\ (exists s reply d,
         In s (testServers 3001)
         /\ status s = online
         /\ (let a := haversine_a sampled (-40.712800053) 105.994
                        (lat (coordinates s)) (lon (coordinates s)) in
             d = 6371 * (2 * Math_atan2 sampled (Math_sqrt a)
                               (Math_sqrt (1 - a))))
         /\ optimal_server sampled (testServers 3001)
              (Some (mkGeo (Some (-40.712800053, 105.994))))
            = (testServers 3001, Json (Some reply))
         /\ registry_fields (sel_server reply) = registry_fields s
         /\ sel_distance reply = Some d
         /\ latency (sel_server reply) = Some (Math_floor (d * 0.1) + 10)
         /\ forall s', In s' (testServers 3001) -> status s' = online ->
              (dist_to sampled (-40.712800053) 105.994 s' <? d) = false
              /\ (is_nan (dist_to sampled (-40.712800053) 105.994 s')
                  = false ->
                  (d <=? dist_to sampled (-40.712800053) 105.994 s') = true))
  /\ map (dist_to sampled (-40.712800053) 105.994) (testServers 3001)
     = [nan; 14444.864619974385; 4682.588712624401; 4026.3312885728906]
  /\ optimal_server sampled (testServers 3001)
       (Some (mkGeo (Some (-40.712800053, 105.994))))
     = (testServers 3001,
        Json (Some (mkSelected
          (mkTestServer 4 "Australia Server" "Sydney, Australia" "AU"
             "Sydney" (mkCoordinates (-33.8688) 151.2093)
             "sydney.speedtest.example.com" 3001 500 0 online (Some 412))
          (Some 4026.3312885728906)))).
Proof.
  split; [|split; [|split]].
  - apply (proj1 (proj2 (optimal_server_selects_primary_or_nearest sampled))
             3001%Z None).
    left. reflexivity.
  - apply (proj2 (proj2 (optimal_server_selects_primary_or_nearest sampled))
             (testServers 3001) (-40.712800053) 105.994).
    reflexivity.
  - reflexivity.
  - reflexivity.
Defined.

(** X2.  The optimal-server query with client coordinates looks at the
    entries that are online and whose computed distance is a number
    below [Infinity]; an entry whose distance is [NaN] is never
    selected.  If there is such an entry, the answer is a copy of the
    one that is strictly nearer than every such entry before it in the
    directory and at least as near as every such entry after it: among
    equally near entries the first wins.  If there is none, the first
    directory entry gets the latency [Infinity], in the directory too,
    and is the answer, without a distance, whether it is online or
    not. *)
Theorem optimal_server_is_first_nearest
    (M : Engine) (dir : list TestServer) (clat clon : float) :
  (existsb (candidate M clat clon) dir = true ->
   exists i s reply,
     first_nearest M clat clon dir i s
     /\ optimal_server M dir (Some (mkGeo (Some (clat, clon))))
        = (dir, Json (Some reply))
     /\ sel_distance reply = Some (dist_to M clat clon s)
     /\ latency (sel_server reply)
        = Some (Math_floor (dist_to M clat clon s * 0.1) + 10)
     /\ registry_fields (sel_server reply) = registry_fields s)
  /\ (forall first rest,
        dir = first :: rest ->
        existsb (candidate M clat clon) dir = false ->
        exists first',
          optimal_server M dir (Some (mkGeo (Some (clat, clon))))
          = (first' :: rest, Json (Some (mkSelected first' None)))
          /\ latency first' = Some infinity
          /\ registry_fields first' = registry_fields first).
Proof.
  split.
  - intros Hex.
    apply existsb_exists in Hex as (s0 & Hin0 & Hc0).
    unfold optimal_server. cbn [ll].
    pose proof (scan_correct M clat clon dir) as Hinv.
    destruct (scan M clat clon dir) as [[sel|] minDistance].
    + destruct Hinv as (i & s & Hfirst & -> & ->).
      exists i, s. eexists. split; [exact Hfirst|].
      split; [reflexivity|]. repeat split; reflexivity.
    + destruct Hinv as [_ Hnone]. rewrite (Hnone s0 Hin0) in Hc0.
      discriminate.
  - intros first rest -> Hnone.
    unfold optimal_server. cbn [ll].
    pose proof (scan_correct M clat clon (first :: rest)) as Hinv.
    destruct (scan M clat clon (first :: rest)) as [[sel|] minDistance].
    + exfalso. destruct Hinv as (i & s & (Hi & Hc & _) & _).
      apply list_elem_of_lookup_2, list_elem_of_In in Hi.
      assert (existsb (candidate M clat clon) (first :: rest) = true)
        by (apply existsb_exists; eauto).
      congruence.
    + destruct Hinv as [-> _]. rewrite simulated_latency_infinity.
      eexists. split; [reflexivity|]. split; reflexivity.
Qed.

(** New York first and alone, with a client near its antipode: the
    entry is online, nothing is selected, and the fallback answers. *)
Lemma optimal_server_is_first_nearest_witness :
  exists first',
    optimal_server sampled (take 1 (testServers 3001))
      (Some (mkGeo (Some (-40.712800053, 105.994))))
    = ([first'], Json (Some (mkSelected first' None)))
    /\ latency first' = Some infinity
    /\ name first' = "Primary Server"%string
    /\ status first' = online.
Proof.
  destruct (proj2 (optimal_server_is_first_nearest sampled
                     (take 1 (testServers 3001)) (-40.712800053) 105.994)
              _ [] eq_refl eq_refl)
    as (first' & Hreply & Hlat & Hfields).
  exists first'. split; [exact Hreply|]. split; [exact Hlat|].
  unfold registry_fields in Hfields. cbn in Hfields.
  injection Hfields as Hid Hname Hloc Hcountry Hcity Hcoord Hhost Hport
    Hcap Hact Hstatus.
  split; assumption.
Defined.

End SelectorFacts.

Module AggregatorFacts.
Import Quality Aggregator.

Lemma inject_Z_pos_neq (n : Z) : (0 < n)%Z -> ~ (inject_Z n == 0)%Q.
Proof. intros H E. unfold Qeq in E. simpl in E. lia. Qed.

Lemma fold_sample_sum (avg : Q) (n : Z) (x S : Q) :
  (0 < n)%Z ->
  (avg * inject_Z (n - 1) == S)%Q ->
  (fold_sample avg n x * inject_Z n == S + x)%Q.
Proof.
  intros Hn H. unfold fold_sample. rewrite H. field.
  apply inject_Z_pos_neq. exact Hn.
Qed.

Lemma Qsum_snoc (l : list Q) (x : Q) : (Qsum (l ++ [x]) == Qsum l + x)%Q.
Proof.
  induction l as [| y l IH]; cbn [Qsum fold_right app].
  - ring.
  - fold (Qsum (l ++ [x])). fold (Qsum l). rewrite IH. ring.
Qed.

Lemma samples_snoc metric sid seen e body :
  samples metric sid (seen ++ [(e, body)])
  = samples metric sid seen
    ++ (if references sid body
        then match results body with Some m => [metric m] | None => [] end
        else []).
Proof.
  unfold samples. rewrite omap_app. f_equal. cbn.
  destruct (references sid body); [|reflexivity].
  destruct (results body); reflexivity.
Qed.

Lemma samples_same_length m1 m2 sid reqs :
  length (samples m1 sid reqs) = length (samples m2 sid reqs).
Proof.
  induction reqs as [| [e body] reqs IH]; [reflexivity|].
  unfold samples in *. cbn.
  destruct (references sid body); [|exact IH].
  destruct (results body); cbn; [f_equal|]; exact IH.
Qed.

Lemma samples_nil m1 m2 sid reqs :
  length (samples m1 sid reqs) = 0%nat -> samples m2 sid reqs = [].
Proof.
  intros H. rewrite (samples_same_length m1 m2) in H.
  destruct (samples m2 sid reqs); [reflexivity | discriminate].
Qed.

Lemma references_spec sid body :
  references sid body = true
  <-> exists srv, server body = Some srv /\ srv_id srv = sid /\ sid <> 0%Z.
Proof.
  unfold references. destruct (server body) as [srv|].
  - rewrite andb_true_iff, negb_true_iff, Z.eqb_neq, Z.eqb_eq. split.
    + intros [Hnz Heq]. exists srv. subst. auto.
    + intros (srv' & [= <-] & Heq & Hnz). subst. auto.
  - split; [discriminate | intros (? & [=] & _)].
Qed.

(** First sample of a server: the fresh statistics object. *)
Lemma first_sample (x : Q) : (fold_sample 0 (0 + 1) x * inject_Z 1 == x)%Q.
Proof.
  rewrite (fold_sample_sum 0 1 x 0); [ring | lia |].
  cbn. reflexivity.
Qed.

Lemma save_results_keeps_inv sid seen st e body :
  full body ->
  stats_inv sid seen st ->
  stats_inv sid (seen ++ [(e, body)]) (fst (save_results st e body)).
Proof.
  intros [m Hm] Hinv. unfold stats_inv in *. cbv zeta in *.
  rewrite !samples_snoc.
  unfold save_results. cbv zeta. cbn [server results add_metadata].
  rewrite Hm.
  destruct (references sid body) eqn:Href.
  - apply references_spec in Href as (srv & Hsrv & Hid & Hnz).
    rewrite Hsrv. subst sid.
    destruct (Z.eqb_spec (srv_id srv) 0) as [E | _]; [contradiction|].
    cbn [fst serverStats]. rewrite lookup_insert_eq.
    rewrite !length_app. cbn [length].
    destruct (serverStats st !! srv_id srv) as [stats|] eqn:Hheld;
      cbn [from_option Datatypes.id totalTests avgPing avgDownload avgUpload
           fresh_stats].
    + destruct Hinv as (Hn & Htot & Hp & Hd & Hu).
      set (n := length (samples ping (srv_id srv) seen)) in *.
      rewrite Htot.
      replace (Z.of_nat (n + 1)) with (Z.of_nat n + 1)%Z by lia.
      split; [lia|]. split; [reflexivity|].
      rewrite !Qsum_snoc.
      split; [|split]; apply fold_sample_sum; try lia;
        replace (Z.of_nat n + 1 - 1)%Z with (Z.of_nat n) by lia;
        assumption.
    + rewrite Hinv. cbn [Nat.add Z.of_nat].
      rewrite !(samples_nil ping _ _ _ Hinv). cbn [app Qsum fold_right].
      split; [lia|]. split; [reflexivity|].
      split; [|split]; rewrite first_sample; ring.
  - rewrite !app_nil_r.
    assert (Hkeep : serverStats (fst (save_results st e body)) !! sid
                    = serverStats st !! sid).
    { unfold save_results. cbv zeta. cbn [server results add_metadata].
      rewrite Hm. unfold references in Href.
      destruct (server body) as [srv|]; [|reflexivity].
      destruct (Z.eqb_spec (srv_id srv) 0) as [E | Hnz]; [reflexivity|].
      cbn [negb andb] in Href. apply Z.eqb_neq in Href.
      cbn [fst serverStats]. apply lookup_insert_ne. exact Href. }
    unfold save_results in Hkeep. cbv zeta in Hkeep.
    cbn [server results add_metadata] in Hkeep. rewrite Hm in Hkeep.
    rewrite Hkeep. exact Hinv.
Qed.

Lemma submit_all_snoc st reqs e body :
  submit_all st (reqs ++ [(e, body)])
  = fst (save_results (submit_all st reqs) e body).
Proof. unfold submit_all. rewrite fold_left_app. reflexivity. Qed.

Lemma submit_all_inv sid reqs :
  Forall (fun req => full (snd req)) reqs ->
  stats_inv sid reqs (submit_all empty_store reqs).
Proof.
  induction reqs as [| [e body] reqs IH] using rev_ind; intros Hfull.
  - unfold stats_inv. cbn. rewrite lookup_empty. reflexivity.
  - apply Forall_app in Hfull as [Hfull Hlast].
    rewrite submit_all_snoc. apply save_results_keeps_inv.
    + apply Forall_inv in Hlast. exact Hlast.
    + apply IH. exact Hfull.
Qed.

Lemma samples_length_full metric sid reqs :
  Forall (fun req => full (snd req)) reqs ->
  length (samples metric sid reqs) = length (referencing sid reqs).
Proof.
  induction reqs as [| [e body] reqs IH]; intros Hfull; [reflexivity|].
  apply Forall_cons in Hfull as [[m Hm] Hfull]. cbn [snd] in Hm.
  specialize (IH Hfull).
  change (samples metric sid ((e, body) :: reqs))
    with (samples metric sid ([(e, body)] ++ reqs)).
  unfold samples in *. rewrite omap_app, length_app, IH.
  unfold referencing. rewrite filter_cons. cbn. rewrite Hm.
  destruct (references sid body); cbn; reflexivity.
Qed.

Lemma mean_of_scaled (avg : Q) (l : list Q) :
  (1 <= length l)%nat ->
  (avg * inject_Z (Z.of_nat (length l)) == Qsum l)%Q ->
  (avg == mean l)%Q.
Proof.
  intros Hn H. unfold mean. rewrite <- H. field.
  apply inject_Z_pos_neq. lia.
Qed.

(** X19.  When every submission carries its metric set, all are
    accepted, and after the N of them that reference a server its
    [ServerStats] holds [totalTests = N] and [avgPing], [avgDownload]
    and [avgUpload] equal the arithmetic means of the N submitted
    samples: the incremental update (avg * (n - 1) + x) / n computes
    the batch mean (exactly, on rationals). *)
Theorem incremental_average_is_batch_mean
    (reqs : list (Env * TestResult)) (sid : Z) :
  Forall (fun req => full (snd req)) reqs ->
  (1 <= length (referencing sid reqs))%nat ->
  exists stats,
    serverStats (submit_all empty_store reqs) !! sid = Some stats
    /\ totalTests stats = Z.of_nat (length (referencing sid reqs))
    /\ (avgPing stats == mean (samples ping sid reqs))%Q
    /\ (avgDownload stats == mean (samples download sid reqs))%Q
    /\ (avgUpload stats == mean (samples upload sid reqs))%Q.
Proof.
  intros Hfull HN.
  pose proof (submit_all_inv sid reqs Hfull) as Hinv.
  pose proof (samples_length_full ping sid reqs Hfull) as Hlen.
  unfold stats_inv in Hinv. cbv zeta in Hinv.
  destruct (serverStats (submit_all empty_store reqs) !! sid) as [stats|].
  - destruct Hinv as (Hn & Htot & Hp & Hd & Hu).
    exists stats. split; [reflexivity|].
    split; [rewrite Htot, Hlen; reflexivity|].
    split; [|split]; apply mean_of_scaled.
    + exact Hn.
    + exact Hp.
    + rewrite (samples_same_length download ping). exact Hn.
    + rewrite (samples_same_length download ping). exact Hd.
    + rewrite (samples_same_length upload ping). exact Hn.
    + rewrite (samples_same_length upload ping). exact Hu.
  - rewrite Hlen in Hinv. lia.
Qed.

Lemma incremental_average_is_batch_mean_witness :
  exists stats,
    serverStats (submit_all empty_store example_submissions) !! 1%Z
    = Some stats
    /\ totalTests stats = 2%Z
    /\ (avgPing stats == mean [10; 30])%Q
    /\ (avgDownload stats == mean [90; 110])%Q
    /\ (avgUpload stats == mean [40; 20])%Q.
Proof.
  apply (incremental_average_is_batch_mean example_submissions 1%Z).
  - repeat constructor; eexists; reflexivity.
  - vm_compute. lia.
Defined.

Lemma get_results_insert_eq st' testId r :
  testResults st' !! testId = Some r -> get_results st' testId = Found r.
Proof. unfold get_results. intros ->. reflexivity. Qed.

Lemma save_results_testResults st e body :
  testResults (fst (save_results st e body))
  = <[uuid e := add_metadata e body]> (testResults st).
Proof.
  unfold save_results. cbv zeta.
  destruct (server (add_metadata e body)) as [srv|]; [|reflexivity].
  destruct (srv_id srv =? 0)%Z; [reflexivity|].
  destruct (results (add_metadata e body)); reflexivity.
Qed.

Lemma submit_all_keys (reqs : list (Env * TestResult)) (testId : string) :
  ~ In testId (issued reqs) ->
  testResults (submit_all empty_store reqs) !! testId = None.
Proof.
  induction reqs as [| [e body] reqs IH] using rev_ind; intros Hnot.
  - cbn. apply lookup_empty.
  - rewrite submit_all_snoc, save_results_testResults.
    unfold issued in *. rewrite map_app, in_app_iff in Hnot. cbn in Hnot.
    rewrite lookup_insert_ne by tauto.
    apply IH. tauto.
Qed.

(** X20.  Saving a result payload, whether or not it already carries an
    id, stores it under the generated id with the server's id,
    timestamp and client address in place of any supplied ones, and
    leaves every other id as it was; reading the generated id back
    yields exactly the stored record.  For a payload that carries its
    metric set the reply carries that id.  An id that was never issued
    reads as not found. *)
Theorem save_results_get_results_roundtrip :
  (forall (st : Store) (e : Env) (body : TestResult),
      let after := fst (save_results st e body) in
      let stored := add_metadata e body in
      get_results after (uuid e) = Found stored
      /\ id stored = Some (uuid e)
      /\ timestamp stored = Some (now e)
      /\ clientIp stored = remote e
      /\ server stored = server body
      /\ results stored = results body
      /\ userInfo stored = userInfo body
      /\ (forall other, other <> uuid e ->
                        get_results after other = get_results st other))
  /\ (forall (st : Store) (e : Env) (body : TestResult),
         full body -> snd (save_results st e body) = Saved (uuid e))
  /\ (forall (reqs : list (Env * TestResult)) (testId : string),
         ~ In testId (issued reqs) ->
         get_results (submit_all empty_store reqs) testId = NotFound).
Proof.
  split; [|split].
  - intros st e body after stored. subst after stored. split.
    + apply get_results_insert_eq. rewrite save_results_testResults.
      apply lookup_insert_eq.
    + repeat split; try reflexivity.
      intros other Hother. unfold get_results.
      rewrite save_results_testResults.
      rewrite lookup_insert_ne by congruence. reflexivity.
  - intros st e body [m Hm].
    unfold save_results. cbv zeta. cbn [server results add_metadata].
    rewrite Hm. destruct (server body) as [srv|]; [|reflexivity].
    destruct (srv_id srv =? 0)%Z; reflexivity.
  - intros reqs testId Hnot. unfold get_results.
    rewrite (submit_all_keys reqs testId Hnot). reflexivity.
Qed.

Lemma save_results_get_results_roundtrip_witness :
  snd (save_results empty_store (example_env "a") (example_body 1 10 90 40))
  = Saved "uuid-a"
  /\ get_results
       (fst (save_results empty_store (example_env "a")
               (example_body 1 10 90 40)))
       "TEST_1700000000000_abc123xyz"
     = NotFound
  /\ get_results (submit_all empty_store example_submissions)
       "TEST_1700000000000_abc123xyz" = NotFound.
Proof.
  split; [|split].
  - apply (proj1 (proj2 save_results_get_results_roundtrip)
             empty_store (example_env "a") (example_body 1 10 90 40)).
    eexists. reflexivity.
  - rewrite (proj2 (proj2 (proj2 (proj2 (proj2 (proj2 (proj2
               (proj1 save_results_get_results_roundtrip
                  empty_store (example_env "a")
                  (example_body 1 10 90 40))))))))
               "TEST_1700000000000_abc123xyz").
    + reflexivity.
    + vm_compute. discriminate.
  - apply (proj2 (proj2 save_results_get_results_roundtrip)
             example_submissions).
    vm_compute. intros [H | [H | [H | []]]]; discriminate H.
Defined.

(** A body that names a server but carries no metric set makes the
    handler throw after the record is stored and, when the server
    already has statistics, after their count is incremented. *)
Lemma save_results_without_metrics :
  let e := example_env "d" in
  let body := mkTestResult None None None
                (Some (mkServerRef 1 "Primary Server" "localhost"))
                None None in
  let before := submit_all empty_store example_submissions in
  let after := fst (save_results before e body) in
  snd (save_results before e body) = SaveFailed
  /\ get_results after "uuid-d" = Found (add_metadata e body)
  /\ totalTests <$> (serverStats before !! 1%Z) = Some 2%Z
  /\ totalTests <$> (serverStats after !! 1%Z) = Some 3%Z.
Proof. vm_compute. repeat split; reflexivity. Qed.

(** C5 fails.  Two results for server 1 are accepted, with pings 10 and
    30; between them a submission that names server 1 but has no
    [results] is answered 500.  Its [stats.totalTests++] has already
    run on the object held in [serverStats], so after N = 2 acceptances
    [totalTests] is 3 and the averages are computed with that count:
    [avgPing] is 50/3, not the mean 20, and [avgDownload] is 290/3,
    not 100. *)
Theorem rejected_submission_counts_in_statistics :
  replies empty_store interrupted_submissions
  = [Saved "uuid-a"; SaveFailed; Saved "uuid-c"]
  /\ samples ping 1 interrupted_submissions = [10; 30]%Q
  /\ exists stats,
       serverStats (submit_all empty_store interrupted_submissions) !! 1%Z
       = Some stats
       /\ totalTests stats = 3%Z
       /\ (avgPing stats == 50 # 3)%Q
       /\ (mean (samples ping 1 interrupted_submissions) == 20)%Q
       /\ ~ (avgPing stats
             == mean (samples ping 1 interrupted_submissions))%Q
       /\ (avgDownload stats == 290 # 3)%Q
       /\ (mean (samples download 1 interrupted_submissions) == 100)%Q.
Proof.
  split; [reflexivity|]. split; [reflexivity|].
  eexists. split; [vm_compute; reflexivity|].
  repeat split; try reflexivity. vm_compute. discriminate.
Qed.

(** C10 fails.  A payload that names a server and has no [results] is
    stored under the generated id, and then the handler throws: the
    reply is the 500 failure, which carries no id.  The record can be
    read back under an id that was never returned. *)
Theorem save_results_stores_without_returning_id
    (st : Store) (e : Env) (body : TestResult) (srv : ServerRef) :
  server body = Some srv ->
  srv_id srv <> 0%Z ->
  results body = None ->
  snd (save_results st e body) = SaveFailed
  /\ get_results (fst (save_results st e body)) (uuid e)
     = Found (add_metadata e body).
Proof.
  intros Hsrv Hid Hres. split.
  - unfold save_results. cbv zeta. cbn [server results add_metadata].
    rewrite Hsrv, Hres.
    destruct (Z.eqb_spec (srv_id srv) 0) as [E | _]; [contradiction|].
    reflexivity.
  - apply get_results_insert_eq. rewrite save_results_testResults.
    apply lookup_insert_eq.
Qed.

Lemma save_results_stores_without_returning_id_witness :
  snd (save_results empty_store (example_env "a") incomplete_body)
  = SaveFailed
  /\ get_results
       (fst (save_results empty_store (example_env "a") incomplete_body))
       "uuid-a"
     = Found (add_metadata (example_env "a") incomplete_body).
Proof.
  apply (save_results_stores_without_returning_id empty_store
           (example_env "a") incomplete_body
           (mkServerRef 1 "Primary Server" "localhost")).
  - reflexivity.
  - discriminate.
  - reflexivity.
Defined.

End AggregatorFacts.

Module TransferFacts.
Import Transfer.
Local Open Scope Z_scope.

Example parseInt_examples :
  parseInt (Some "0"%string) = Some 0
  /\ parseInt (Some "-5"%string) = Some (-5)
  /\ parseInt (Some "12abc"%string) = Some 12
  /\ parseInt (Some "abc"%string) = None
  /\ parseInt (Some ""%string) = None
  /\ parseInt (Some "0x10"%string) = Some 16
  /\ parseInt (Some "  42"%string) = Some 42
  /\ parseInt (Some "13107200"%string) = Some 13107200
  /\ parseInt None = None.
Proof. repeat split; reflexivity. Qed.

Lemma or_default_cases (x : option Z) (d : Z) :
  (x = None \/ x = Some 0 -> or_default x d = d)
  /\ (forall n, x = Some n -> n <> 0 -> or_default x d = n).
Proof.
  split.
  - intros [-> | ->]; reflexivity.
  - intros n -> Hn. unfold or_default.
    destruct (Z.eqb_spec n 0); [contradiction | reflexivity].
Qed.

Lemma worker_requested_size_eq (q : option string) :
  worker_requested_size q = requested_size q.
Proof.
  unfold worker_requested_size, requested_size. cbv zeta.
  destruct (Z.gtb_spec (or_default (parseInt q) DEFAULT_SIZE) MAX_SIZE); lia.
Qed.

(** C3, as stated, fails: a size of zero parses but is replaced by the
    default, and a negative size is passed on instead of defaulted. *)
Lemma zero_and_negative_sizes_differ_from_spec :
  parseInt (Some "0"%string) = Some 0
  /\ spec_requested_size (Some "0"%string) = 0
  /\ requested_size (Some "0"%string) = DEFAULT_SIZE
  /\ requested_size (Some "0"%string) <> spec_requested_size (Some "0"%string)
  /\ spec_requested_size (Some "-5"%string) = DEFAULT_SIZE
  /\ requested_size (Some "-5"%string) = -5.
Proof. repeat split; try reflexivity. vm_compute. discriminate. Qed.

(** C3, amended.  A download request is never answered with an error:
    the reply has status 200 and announces the size chosen as follows.
    A size parameter on which [parseInt] yields NaN or zero selects
    the default of 10 MiB; one that parses to a positive integer
    selects that integer, clamped to the ceiling of 100 MiB.  The
    worker variant chooses the same size. *)
Theorem download_size_defaulted_or_clamped
    (q : option string) (signals : list Signal) :
  status (download q signals) = 200
  /\ contentLength (download q signals) = requested_size q
  /\ worker_requested_size q = requested_size q
  /\ (parseInt q = None \/ parseInt q = Some 0 ->
      requested_size q = DEFAULT_SIZE)
  /\ (forall n, parseInt q = Some n -> 0 < n ->
                requested_size q = Z.min n MAX_SIZE
                /\ (n <= MAX_SIZE -> requested_size q = n)
                /\ (MAX_SIZE < n -> requested_size q = MAX_SIZE)).
Proof.
  split; [reflexivity|]. split; [reflexivity|].
  split; [apply worker_requested_size_eq|].
  destruct (or_default_cases (parseInt q) DEFAULT_SIZE) as [Hdef Hval].
  unfold requested_size. cbv zeta. split.
  - intros H. rewrite (Hdef H). reflexivity.
  - intros n Hn Hpos. rewrite (Hval n Hn) by lia.
    destruct (Z.gtb_spec n MAX_SIZE); lia.
Qed.

Lemma download_size_defaulted_or_clamped_witness :
  requested_size (Some "abc"%string) = DEFAULT_SIZE
  /\ requested_size (Some "13107200"%string) = 13107200
  /\ requested_size (Some "999999999"%string) = MAX_SIZE.
Proof.
  split; [|split].
  - apply (proj1 (proj2 (proj2 (proj2
             (download_size_defaulted_or_clamped (Some "abc"%string) []))))).
    left. reflexivity.
  - apply (proj2 (proj2 (proj2 (proj2
             (download_size_defaulted_or_clamped
                (Some "13107200"%string) [])))) 13107200);
      [reflexivity | lia | vm_compute; discriminate].
  - apply (proj2 (proj2 (proj2 (proj2
             (download_size_defaulted_or_clamped
                (Some "999999999"%string) [])))) 999999999);
      [reflexivity | lia | vm_compute; reflexivity].
Defined.

Lemma body_length_snoc (chunks : list Buffer) (b : Buffer) :
  body_length (chunks ++ [b]) = body_length chunks + byteLength b.
Proof.
  induction chunks as [| c chunks IH]; cbn [body_length fold_right app].
  - lia.
  - fold (body_length (chunks ++ [b])). fold (body_length chunks). lia.
Qed.

Lemma chunkSize_pos : 0 < chunkSize.
Proof. reflexivity. Qed.

Lemma worker_chunkSize_pos : 0 < worker_chunkSize.
Proof. reflexivity. Qed.

(** With a transport that never pushes back and a client that stays,
    [sendChunk] finishes and the chunks add up to [size]. *)
Lemma sendChunk_flushed_exact (size : Z) (n : nat) : forall st : Stream,
  0 <= bytesSent st <= size ->
  active st = true ->
  body_length (written st) = bytesSent st ->
  size - bytesSent st <= Z.of_nat n * chunkSize ->
  let st' := sendChunk size (repeat WriteFlushed n) st in
  ended st' = true
  /\ bytesSent st' = size
  /\ body_length (written st') = size.
Proof.
  pose proof chunkSize_pos as Hc.
  induction n as [| n IH]; intros st Hrange Hact Hbody Hleft st'; subst st'.
  - cbn [repeat sendChunk]. rewrite Hact. cbn [negb orb].
    destruct (Z.geb_spec (bytesSent st) size); cbn [orb];
      [|exfalso; lia].
    cbn [ended bytesSent written w_ended offset w_written].
      repeat split; (reflexivity || lia).
  - cbn [repeat sendChunk]. rewrite Hact. cbn [negb].
    destruct (Z.geb_spec (bytesSent st) size); cbn [orb].
    + cbn [ended bytesSent written w_ended offset w_written].
      repeat split; (reflexivity || lia).
    + apply IH; cbn [bytesSent active written].
      * lia.
      * reflexivity.
      * rewrite body_length_snoc. cbn [generateRandomData byteLength]. lia.
      * lia.
Qed.

Lemma slice_length (size start end_ : Z) :
  0 <= start <= end_ -> end_ <= size ->
  byteLength (slice (mkBuffer size) start end_) = end_ - start.
Proof. intros H1 H2. unfold slice. cbn [byteLength]. lia. Qed.

Lemma worker_sendChunk_flushed_exact (size : Z) (n : nat) :
  forall st : WorkerStream,
  0 <= offset st <= size ->
  body_length (w_written st) = offset st ->
  size - offset st <= Z.of_nat n * worker_chunkSize ->
  let st' := worker_sendChunk (mkBuffer size) size (repeat WriteFlushed n) st in
  w_ended st' = true
  /\ offset st' = size
  /\ body_length (w_written st') = size.
Proof.
  pose proof worker_chunkSize_pos as Hc.
  induction n as [| n IH]; intros st Hrange Hbody Hleft st'; subst st'.
  - cbn [repeat worker_sendChunk].
    destruct (Z.geb_spec (offset st) size); [|exfalso; lia].
    cbn [ended bytesSent written w_ended offset w_written].
      repeat split; (reflexivity || lia).
  - cbn [repeat worker_sendChunk].
    destruct (Z.geb_spec (offset st) size).
    + cbn [ended bytesSent written w_ended offset w_written].
      repeat split; (reflexivity || lia).
    + apply IH; cbn [offset w_written].
      * lia.
      * rewrite body_length_snoc, slice_length by lia. lia.
      * lia.
Qed.

(** Without back-pressure the body has exactly the announced length. *)
Lemma download_exact_without_backpressure (q : option string) (n : nat) :
  0 <= requested_size q <= Z.of_nat n * chunkSize ->
  let r := download q (repeat WriteFlushed n) in
  ended (stream r) = true
  /\ body_length (written (stream r)) = contentLength r
  /\ contentLength r = requested_size q.
Proof.
  intros Hsize r. subst r. unfold download. cbv zeta.
  cbn [stream contentLength].
  destruct (sendChunk_flushed_exact (requested_size q) n
              (mkStream 0 true [] false)) as (He & _ & Hb);
    cbn [bytesSent active written body_length fold_right]; try lia;
    try reflexivity.
  auto.
Qed.

(** A queued write is never taken back: the excess only grows. *)
Lemma sendChunk_excess_mono (size : Z) (signals : list Signal) :
  forall st : Stream, excess st <= excess (sendChunk size signals st).
Proof.
  pose proof chunkSize_pos as Hc.
  induction signals as [| sig rest IH]; intros st; cbn [sendChunk];
    destruct (Z.geb_spec (bytesSent st) size) as [Hge | Hlt];
    destruct (active st); cbn [negb orb];
    try (unfold excess; cbn [written bytesSent]; lia).
  destruct sig.
  - etransitivity; [|apply IH].
    unfold excess. cbn [written bytesSent].
    rewrite body_length_snoc. cbn [generateRandomData byteLength]. lia.
  - assert (Hwait :
      excess st
      <= excess (mkStream (bytesSent st) true
                   (written st ++
                    [generateRandomData
                       (Z.min chunkSize (size - bytesSent st))])
                   (ended st))).
    { unfold excess. cbn [written bytesSent].
      rewrite body_length_snoc. cbn [generateRandomData byteLength]. lia. }
    destruct rest as [| [| |] rest'];
      try (etransitivity; [exact Hwait | apply IH]).
    unfold excess in *. cbn [written bytesSent] in *. exact Hwait.
  - etransitivity; [|apply IH].
    unfold excess. cbn [written bytesSent]. lia.
Qed.

Lemma sendChunk_queued_excess (size : Z) (rest : list Signal) (st : Stream) :
  active st = true ->
  bytesSent st < size ->
  excess st + Z.min chunkSize (size - bytesSent st)
  <= excess (sendChunk size (WriteQueued :: rest) st).
Proof.
  intros Hact Hlt. cbn [sendChunk]. rewrite Hact.
  destruct (Z.geb_spec (bytesSent st) size); [lia|]. cbn [negb orb].
  assert (Hwait :
    excess st + Z.min chunkSize (size - bytesSent st)
    <= excess (mkStream (bytesSent st) true
                 (written st ++
                  [generateRandomData
                     (Z.min chunkSize (size - bytesSent st))])
                 (ended st))).
  { unfold excess. cbn [written bytesSent].
    rewrite body_length_snoc. cbn [generateRandomData byteLength]. lia. }
  destruct rest as [| [| |] rest'];
    try (etransitivity; [exact Hwait | apply sendChunk_excess_mono]).
  unfold excess in *. cbn [written bytesSent] in *. exact Hwait.
Qed.

(** While the request stays open, a stream that ends has counted
    exactly [size] bytes. *)
Lemma sendChunk_ends_at_size (size : Z) (signals : list Signal) :
  forall st : Stream,
  ~ In Closed signals ->
  active st = true ->
  ended st = false ->
  bytesSent st <= size ->
  ended (sendChunk size signals st) = true ->
  bytesSent (sendChunk size signals st) = size.
Proof.
  pose proof chunkSize_pos as Hc.
  induction signals as [| sig rest IH]; intros st Hopen Hact Hnot Hle;
    cbn [sendChunk]; rewrite Hact; cbn [negb];
    destruct (Z.geb_spec (bytesSent st) size) as [Hge | Hlt]; cbn [orb];
    cbn [ended bytesSent]; try lia; try congruence.
  destruct sig.
  - apply IH; cbn [active ended bytesSent]; auto; [|lia].
    intros Hin. apply Hopen. right. exact Hin.
  - assert (Hrest : ~ In Closed rest)
      by (intros Hin; apply Hopen; right; exact Hin).
    destruct rest as [| [| |] rest'];
      try (apply IH; cbn [active ended bytesSent]; auto; fail).
    exfalso. apply Hrest. left. reflexivity.
  - exfalso. apply Hopen. left. reflexivity.
Qed.

(** Whenever the first write of a download is queued and the request
    stays open until the response ends, the body is longer than the
    announced Content-Length by at least the first chunk. *)
Lemma download_overshoots_after_queued_write
    (q : option string) (rest : list Signal) :
  0 < requested_size q ->
  ~ In Closed rest ->
  let r := download q (WriteQueued :: rest) in
  ended (stream r) = true ->
  contentLength r + Z.min chunkSize (requested_size q)
  <= body_length (written (stream r)).
Proof.
  intros Hpos Hopen r Hend. subst r. unfold download in *. cbv zeta in *.
  cbn [stream contentLength] in *.
  set (st0 := mkStream 0 true [] false) in *.
  pose proof (sendChunk_queued_excess (requested_size q) rest st0
                eq_refl Hpos) as Hex.
  pose proof (sendChunk_ends_at_size (requested_size q)
                (WriteQueued :: rest) st0) as Hsize.
  unfold excess in Hex. rewrite Hsize in Hex.
  - replace (body_length (written st0)) with 0 in Hex by reflexivity.
    replace (bytesSent st0) with 0 in Hex by reflexivity.
    replace (requested_size q - 0) with (requested_size q) in Hex by lia.
    lia.
  - intros [Hin | Hin]; [discriminate | contradiction].
  - reflexivity.
  - reflexivity.
  - cbn. lia.
  - exact Hend.
Qed.

(** C4 fails under back-pressure.  A request for 131072 bytes (two
    64 KiB chunks) whose first [res.write] returns [false] ends after
    three chunks, 196608 bytes, against a Content-Length of 131072:
    after ['drain'] the chunk that was already queued is written
    again.  The worker variant does the same with its 256 KiB chunks. *)
Theorem download_resends_chunk_after_drain :
  let signals := [WriteQueued; WriteFlushed; WriteFlushed] in
  (let r := download (Some "131072"%string) signals in
   contentLength r = 131072
   /\ ended (stream r) = true
   /\ bytesSent (stream r) = 131072
   /\ body_length (written (stream r)) = 196608)
  /\ (snd (worker_download ∅ (Some "524288"%string) signals)
      = Streamed 524288
          (mkWorkerStream 524288
             [mkBuffer 262144; mkBuffer 262144; mkBuffer 262144] true)
      /\ body_length [mkBuffer 262144; mkBuffer 262144; mkBuffer 262144]
         = 786432).
Proof. vm_compute. repeat split; reflexivity. Qed.

Lemma cache_after_snoc (cache : gmap Z Buffer) (sizes : list Z) (k : Z) :
  cache_after cache (sizes ++ [k])
  = fst (getTestData (cache_after cache sizes) k).
Proof. unfold cache_after. rewrite fold_left_app. reflexivity. Qed.

Lemma getTestData_lookup (cache : gmap Z Buffer) (j k : Z) :
  fst (getTestData cache j) !! k
  = if decide (k = j /\ 0 <= j /\ cache !! j = None)
    then Some (mkBuffer j) else cache !! k.
Proof.
  unfold getTestData.
  destruct (cache !! j) as [data|] eqn:Hj; cbn [fst].
  - rewrite decide_False; [reflexivity|]. intros (_ & _ & [=]).
  - destruct (Z.ltb_spec j 0); cbn [fst].
    + rewrite decide_False; [reflexivity|]. lia.
    + case_decide as Hd.
      * destruct Hd as (-> & _). apply lookup_insert_eq.
      * apply lookup_insert_ne. intros <-. apply Hd. auto.
Qed.

(** Every key is a size that was asked for and is not negative, every
    such size is a key, and the buffer under a key has that length. *)
Lemma cache_after_lookup (sizes : list Z) : forall k : Z,
  cache_after ∅ sizes !! k
  = if decide (k ∈ sizes /\ 0 <= k) then Some (mkBuffer k) else None.
Proof.
  induction sizes as [| j sizes IH] using rev_ind; intros k.
  - cbn. rewrite lookup_empty. rewrite decide_False; [reflexivity|].
    intros [H _]. inversion H.
  - rewrite cache_after_snoc, getTestData_lookup, !IH.
    assert (Hsnoc : k ∈ sizes ++ [j] <-> k ∈ sizes \/ k = j)
      by (rewrite elem_of_app, list_elem_of_singleton; reflexivity).
    destruct (decide (j ∈ sizes /\ 0 <= j)) as [Hj | Hj].
    + rewrite decide_False by (intros (_ & _ & [=])).
      destruct (decide (k ∈ sizes /\ 0 <= k)) as [Hk | Hk].
      * rewrite decide_True by tauto. reflexivity.
      * rewrite decide_False; [reflexivity|].
        intros [[Hin | ->]%Hsnoc Hpos]; tauto.
    + destruct (decide (k = j /\ 0 <= j /\ None = None)) as [Hd | Hd].
      * destruct Hd as (-> & Hpos & _).
        rewrite decide_True by tauto. reflexivity.
      * destruct (decide (k ∈ sizes /\ 0 <= k)) as [Hk | Hk].
        -- rewrite decide_True by tauto. reflexivity.
        -- rewrite decide_False; [reflexivity|].
           intros [[Hin | ->]%Hsnoc Hpos]; tauto.
Qed.

Lemma cache_after_dom (sizes : list Z) :
  dom (cache_after ∅ sizes) = list_to_set (filter (fun k => 0 <= k) sizes).
Proof.
  apply set_eq. intros k.
  rewrite elem_of_dom, cache_after_lookup, elem_of_list_to_set,
    list_elem_of_filter.
  case_decide as Hd; split.
  - intros _. tauto.
  - intros _. eexists. reflexivity.
  - intros [? [=]].
  - intros H. tauto.
Qed.

Lemma distinct_sizes_all_cached (n : nat) :
  size (cache_after ∅ (seqZ 0 (Z.of_nat n))) = n.
Proof.
  rewrite <- size_dom.
  replace (dom (cache_after ∅ (seqZ 0 (Z.of_nat n))))
    with (list_to_set (C := gset Z) (seqZ 0 (Z.of_nat n))).
  - rewrite size_list_to_set by apply NoDup_seqZ.
    rewrite length_seqZ. lia.
  - rewrite cache_after_dom. apply set_eq. intros k.
    rewrite !elem_of_list_to_set, list_elem_of_filter, elem_of_seqZ. lia.
Qed.

(** C9, as stated, fails: no number bounds the entries of the cache. *)
Lemma cache_grows_without_bound : ~ cache_bounded.
Proof.
  intros [cap Hcap].
  specialize (Hcap (seqZ 0 (Z.of_nat (S cap)))).
  rewrite distinct_sizes_all_cached in Hcap. lia.
Qed.

Lemma worker_download_cache (cache : gmap Z Buffer) q signals :
  fst (worker_download cache q signals)
  = fst (getTestData cache (worker_requested_size q)).
Proof.
  unfold worker_download. cbv zeta.
  destruct (getTestData cache (worker_requested_size q)) as [c [d|]];
    reflexivity.
Qed.

Lemma worker_cache_after_sizes reqs : forall cache : gmap Z Buffer,
  worker_cache_after cache reqs
  = cache_after cache (map (fun req => worker_requested_size (fst req)) reqs).
Proof.
  induction reqs as [| [q signals] reqs IH]; intros cache; [reflexivity|].
  cbn [worker_cache_after cache_after fold_left map fst snd].
  rewrite worker_download_cache. apply IH.
Qed.

Lemma worker_requested_size_range (q : option string) :
  worker_requested_size q <= MAX_SIZE /\ worker_requested_size q <> 0.
Proof.
  unfold worker_requested_size, or_default.
  assert (0 < DEFAULT_SIZE) by reflexivity.
  assert (0 < MAX_SIZE) by reflexivity.
  destruct (parseInt q) as [n|]; [destruct (Z.eqb_spec n 0)|]; lia.
Qed.

(** C9, amended.  The memoization cache has neither cap nor eviction:
    after any sequence of requests it holds exactly the non-negative
    sizes asked for so far, each with a buffer of that length, so
    distinct sizes leave as many entries.  Through the download route
    its keys lie between 1 and the ceiling of 100 MiB, the only limit
    on its growth. *)
Theorem cache_keeps_every_requested_size :
  (forall (sizes : list Z) (k : Z),
      k ∈ sizes -> 0 <= k ->
      cache_after ∅ sizes !! k = Some (mkBuffer k))
  /\ (forall (sizes : list Z) (k : Z) (b : Buffer),
         cache_after ∅ sizes !! k = Some b ->
         k ∈ sizes /\ 0 <= k /\ byteLength b = k)
  /\ (forall n : nat, size (cache_after ∅ (seqZ 0 (Z.of_nat n))) = n)
  /\ (forall (reqs : list (option string * list Signal)) (k : Z),
         is_Some (worker_cache_after ∅ reqs !! k) -> 1 <= k <= MAX_SIZE).
Proof.
  split; [|split; [|split]].
  - intros sizes k Hin Hpos. rewrite cache_after_lookup.
    rewrite decide_True by tauto. reflexivity.
  - intros sizes k b. rewrite cache_after_lookup.
    case_decide as Hd; [|discriminate].
    intros [= <-]. cbn [byteLength]. tauto.
  - apply distinct_sizes_all_cached.
  - intros reqs k. rewrite worker_cache_after_sizes, cache_after_lookup.
    case_decide as Hd; [|intros [? [=]]].
    intros _. destruct Hd as [Hin Hpos].
    apply list_elem_of_In, in_map_iff in Hin as ([q signals] & <- & _).
    cbn [fst] in *.
    pose proof (worker_requested_size_range q). lia.
Qed.

Lemma cache_keeps_every_requested_size_witness :
  cache_after ∅ [1048576; 5; 1048576; 7] !! 5 = Some (mkBuffer 5)
  /\ (1 <= 13107200 <= MAX_SIZE).
Proof.
  split.
  - apply (proj1 cache_keeps_every_requested_size [1048576; 5; 1048576; 7] 5).
    + set_solver.
    + lia.
  - apply (proj2 (proj2 (proj2 cache_keeps_every_requested_size))
             [(Some "13107200"%string, [WriteFlushed])] 13107200).
    vm_compute. eexists. reflexivity.
Defined.

End TransferFacts.

Module OrchestratorFacts.
Import Quality Orchestrator.
Local Open Scope Z_scope.

Lemma or_zero_id (x : Z) : or_zero x = x.
Proof. unfold or_zero. destruct (Z.eqb_spec x 0); congruence. Qed.

(** The difference between the two counters never changes. *)
Lemma onprogress_difference (c : Counters) (e : ProgressEvent) :
  totalBytes (onprogress c e) - loadedBytes (onprogress c e)
  = totalBytes c - loadedBytes c.
Proof.
  unfold onprogress. destruct (lengthComputable e); [|reflexivity].
  cbn [totalBytes loadedBytes]. rewrite or_zero_id. lia.
Qed.

Lemma after_progress_difference (events : list ProgressEvent) :
  forall c : Counters,
  totalBytes (after_progress c events) - loadedBytes (after_progress c events)
  = totalBytes c - loadedBytes c.
Proof.
  induction events as [| e events IH]; intros c; [reflexivity|].
  cbn [after_progress fold_left]. fold (after_progress (onprogress c e) events).
  rewrite IH. apply onprogress_difference.
Qed.

(** So the running total of a phase is the size last reported by any
    one request, whatever the others have received. *)
Lemma total_is_last_report (events : list ProgressEvent) :
  totalBytes (after_progress (mkCounters 0 0) events)
  = loadedBytes (after_progress (mkCounters 0 0) events).
Proof.
  pose proof (after_progress_difference events (mkCounters 0 0)) as H.
  cbn [totalBytes loadedBytes] in H. lia.
Qed.

(** C2 fails.  With four requests reporting 64 KiB each and the first
    then reporting 128 KiB, 327680 bytes have been received but the
    running total is 131072: every handler subtracts the one shared
    [this.loadedBytes], so the bytes of the other requests are lost. *)
Theorem download_total_misses_parallel_bytes :
  monotone_reports (fun _ => 0) example_reports = true
  /\ received example_reports = 327680
  /\ totalBytes (after_progress (mkCounters 0 0) example_reports) = 131072
  /\ totalBytes (after_progress (mkCounters 0 0) example_reports)
     <> received example_reports.
Proof. vm_compute. repeat split; try reflexivity. discriminate. Qed.

(** *** Cancellation *)

Lemma stopTest_currentTest (s : SpeedTest) :
  currentTest (stopTest s) = currentTest s.
Proof. reflexivity. Qed.

Lemma step_currentTest (s : SpeedTest) (ev : Event) :
  currentTest (step s ev) = currentTest s.
Proof.
  destruct ev as [fresh | id pings | id e | id o elapsed | id bytes
                  | id o elapsed random clock]; cbn [step].
  - unfold startTest. destruct (isTesting s); reflexivity.
  - destruct (find_run id AwaitPing (runs s)); [|reflexivity].
    destruct pings; reflexivity.
  - destruct (find_run id AwaitDownload (runs s)); reflexivity.
  - destruct (find_run id AwaitDownload (runs s)); [|reflexivity].
    destruct o; reflexivity.
  - destruct (find_run id AwaitUpload (runs s)); reflexivity.
  - destruct (find_run id AwaitUpload (runs s)); [|reflexivity].
    destruct o; reflexivity.
Qed.

(** [this.currentTest] is assigned in the constructor only. *)
Lemma currentTest_stays_null (stored : list HistoryEntry)
    (events : list Event) :
  currentTest (deliver (initial stored) events) = None.
Proof.
  unfold deliver. rewrite <- fold_left_rev_right.
  induction (rev events) as [| ev evs IH]; [reflexivity|].
  cbn [fold_right]. rewrite step_currentTest. exact IH.
Qed.

(** Hence a stop request aborts nothing and resumes no run. *)
Lemma stopTest_aborts_nothing (stored : list HistoryEntry)
    (events : list Event) :
  let s := deliver (initial stored) events in
  xhrs (stopTest s) = xhrs s /\ runs (stopTest s) = runs s.
Proof.
  intros s. unfold stopTest. subst s.
  rewrite currentTest_stays_null. split; reflexivity.
Qed.

(** C1 fails.  A click during the download phase clears the testing
    flag and shows "Test stopped", but the four requests stay in
    flight, none is aborted, the run is still waiting for its
    download; when the transfers finish it goes on to upload, stores
    its result in the history and posts it. *)
Theorem stop_request_does_not_cancel_run :
  let stopped := deliver (initial []) until_stop in
  let final := deliver stopped after_stop in
  isTesting stopped = false
  /\ phase stopped = TestStopped
  /\ in_flight stopped = [0; 1; 2; 3]%nat
  /\ aborted stopped = []
  /\ map pc (runs stopped) = [AwaitDownload]
  /\ history stopped = []
  /\ map pc (runs final) = [Finished]
  /\ phase final = TestComplete
  /\ aborted final = []
  /\ map h_id (history final) = ["TEST_1"%string]
  /\ map h_id (posted final) = ["TEST_1"%string].
Proof. vm_compute. repeat split; reflexivity. Qed.

End OrchestratorFacts.

Module JsFacts.

Section SortFacts.

Context {A : Type}.
Variable le : A -> A -> bool.

Lemma insert_perm (x : A) (l : list A) :
  Permutation (Js.insert le x l) (x :: l).
Proof.
  induction l as [| y l IH]; cbn [Js.insert]; [reflexivity|].
  destruct (le x y); [reflexivity|].
  rewrite IH. apply perm_swap.
Qed.

Lemma sort_cons (x : A) (l : list A) :
  Js.sort le (x :: l) = Js.insert le x (Js.sort le l).
Proof. reflexivity. Qed.

Lemma sort_perm (l : list A) : Permutation (Js.sort le l) l.
Proof.
  induction l as [| x l IH]; [reflexivity|].
  rewrite sort_cons, insert_perm, IH. reflexivity.
Qed.

End SortFacts.

End JsFacts.

Module DirectoryFacts.
Import Selector Directory.

(** X4.  After any accepted submissions, the snapshot of
    [/api/server-stats] has one entry per directory entry, in directory
    order; the entry of a server shows as [totalTests] the number of
    submissions that reference its id, with the means of their samples
    as averages, and the literal of zeros without [lastUpdated] when no
    submission references it. *)
Theorem server_stats_joins_directory_with_statistics
    (dir : list TestServer) (reqs : list (Aggregator.Env * Aggregator.TestResult)) :
  Forall (fun req => Aggregator.full (snd req)) reqs ->
  let snapshot :=
    server_stats dir (Aggregator.submit_all Aggregator.empty_store reqs) in
  length snapshot = length dir
  /\ forall i s, dir !! i = Some s ->
       let n := length (Aggregator.referencing (id s) reqs) in
       exists v,
         snapshot !! i = Some (s, v)
         /\ v_totalTests v = Z.of_nat n
         /\ (n = 0%nat -> v = mkStatsView 0 0 0 0 None)
         /\ ((1 <= n)%nat ->
             (v_avgPing v
              == Aggregator.mean (Aggregator.samples Quality.ping (id s) reqs))%Q
             /\ (v_avgDownload v
                 == Aggregator.mean
                      (Aggregator.samples Quality.download (id s) reqs))%Q
             /\ (v_avgUpload v
                 == Aggregator.mean
                      (Aggregator.samples Quality.upload (id s) reqs))%Q).
Proof.
  intros Hfull snapshot. subst snapshot. split.
  - unfold server_stats. apply length_map.
  - intros i s Hi n. subst n.
    unfold server_stats. rewrite list_lookup_fmap, Hi. cbn [fmap option_fmap option_map].
    eexists. split; [reflexivity|].
    pose proof (AggregatorFacts.submit_all_inv (id s) reqs Hfull) as Hinv.
    pose proof (AggregatorFacts.samples_length_full Quality.ping (id s) reqs
                  Hfull) as Hlen.
    unfold Aggregator.stats_inv in Hinv. cbv zeta in Hinv.
    rewrite Hlen in Hinv.
    destruct (Aggregator.serverStats
                (Aggregator.submit_all Aggregator.empty_store reqs) !! id s)
      as [stats|]; cbn [view v_totalTests v_avgPing v_avgDownload v_avgUpload].
    + destruct Hinv as (Hn & Htot & Hp & Hd & Hu).
      split; [exact Htot|]. split; [lia|]. intros _.
      rewrite <- Hlen in Hp, Hd, Hu, Hn.
      split; [|split]; apply AggregatorFacts.mean_of_scaled.
      * exact Hn.
      * exact Hp.
      * rewrite (AggregatorFacts.samples_same_length _ Quality.ping). exact Hn.
      * rewrite (AggregatorFacts.samples_same_length _ Quality.ping). exact Hd.
      * rewrite (AggregatorFacts.samples_same_length _ Quality.ping). exact Hn.
      * rewrite (AggregatorFacts.samples_same_length _ Quality.ping). exact Hu.
    + rewrite Hinv. split; [reflexivity|]. split; [reflexivity|]. lia.
Qed.

Lemma server_stats_joins_directory_with_statistics_witness :
  length (server_stats (testServers 3001)
            (Aggregator.submit_all Aggregator.empty_store
               Aggregator.example_submissions))
  = 4%nat.
Proof.
  apply (server_stats_joins_directory_with_statistics (testServers 3001)
           Aggregator.example_submissions).
  repeat constructor; eexists; reflexivity.
Defined.

Section ProxyFacts.

Variable loose_eq : Z -> string -> bool.


Local Abbreviation pointing i m :=
  (size (filter (fun kv : nat * nat => snd kv = i) (m : gmap nat nat))).






End ProxyFacts.


End DirectoryFacts.

Module UploadFacts.
Import Upload.
Local Open Scope Z_scope.

Lemma upload_data_only connectionId (chunks : list (list Byte.byte)) :
  forall st : UploadState,
  fold_left (upload_event connectionId) (map OnData chunks) st
  = mkUploadState (bytesReceived st + Z.of_nat (length (concat chunks)))
      (activeConnections st) (sent st) (threw st).
Proof.
  induction chunks as [| c chunks IH]; intros st.
  - cbn. destruct st. cbn. f_equal. lia.
  - cbn [map fold_left concat]. rewrite IH. cbn [upload_event bytesReceived
      activeConnections sent threw]. rewrite length_app. f_equal. lia.
Qed.

Lemma worker_upload_data_only (chunks : list (list Byte.byte)) :
  forall st : WorkerUpload,
  fold_left worker_upload_event (map OnData chunks) st
  = mkWorkerUpload (received st + Z.of_nat (length (concat chunks)))
      (w_sent st) (w_threw st).
Proof.
  induction chunks as [| c chunks IH]; intros st.
  - cbn. destruct st. cbn. f_equal. lia.
  - cbn [map fold_left concat]. rewrite IH. cbn [worker_upload_event received
      w_sent w_threw]. rewrite length_app. f_equal. lia.
Qed.

Lemma upload_whole_body connectionId conns chunks duration :
  upload connectionId conns (whole_body chunks duration)
  = mkUploadState (Z.of_nat (length (concat chunks)))
      (({[connectionId]} ∪ conns) ∖ {[connectionId]})
      [Uploaded (Z.of_nat (length (concat chunks))) duration
         (speedMbps (Z.of_nat (length (concat chunks))) duration)]
      false.
Proof.
  unfold upload, whole_body.
  rewrite fold_left_app, upload_data_only. reflexivity.
Qed.

(** X6.  An upload whose body arrives whole, behind the JSON body
    parser of the test server.  When the parser leaves the stream alone
    (as for the client's untyped Blob), the upload is answered, once,
    with [bytesReceived] equal to the length of the body, however the
    body is split into chunks (an empty body included), and its
    connection is released.  When the parser has consumed a JSON body,
    the handler counts nothing and never answers, and the connection
    stays in [activeConnections] until the request closes.  When the
    parser refuses the body the route is not entered.  The regional
    worker, which has no body parser, reports the length of the
    body. *)
Theorem upload_counts_every_byte
    (connectionId : string) (conns : gset string)
    (chunks : list (list Byte.byte)) (duration : Z) (closes : bool) :
  let n := Z.of_nat (length (concat chunks)) in
  (exists st,
      post_upload Skipped connectionId conns chunks duration closes = Some st
      /\ sent st = [Uploaded n duration (speedMbps n duration)]
      /\ bytesReceived st = n
      /\ threw st = false
      /\ (connectionId ∉ activeConnections st))
  /\ (exists st,
         post_upload Consumed connectionId conns chunks duration closes
         = Some st
         /\ sent st = []
         /\ bytesReceived st = 0
         /\ (connectionId ∈ activeConnections st <-> closes = false))
  /\ post_upload Refused connectionId conns chunks duration closes = None
  /\ w_sent (worker_upload (whole_body chunks duration))
     = [Uploaded n duration (speedMbps n duration)].
Proof.
  intros n. subst n. split; [|split; [|split]].
  - eexists. split; [reflexivity|]. cbn [delivery].
    unfold upload. rewrite fold_left_app.
    fold (upload connectionId conns (whole_body chunks duration)).
    rewrite upload_whole_body.
    destruct closes; cbn; repeat split; try reflexivity; set_solver.
  - eexists. split; [reflexivity|].
    destruct closes; cbn; repeat split; try reflexivity;
      try set_solver; try discriminate.
  - reflexivity.
  - unfold worker_upload, whole_body.
    rewrite fold_left_app, worker_upload_data_only. reflexivity.
Qed.

Lemma upload_event_sent_once connectionId st ev :
  (length (sent st) <= 1)%nat ->
  (length (sent (upload_event connectionId st ev)) <= 1)%nat.
Proof.
  destruct ev; cbn [upload_event]; try (intros; assumption);
    destruct (sent st) as [| r rest]; cbn; intros; lia.
Qed.

Lemma upload_event_conns connectionId st ev (c : string) :
  c <> connectionId ->
  c ∈ activeConnections (upload_event connectionId st ev)
  <-> c ∈ activeConnections st.
Proof.
  intros Hc. destruct ev; cbn [upload_event]; [reflexivity | | |];
    try destruct (sent st); cbn [activeConnections]; set_solver.
Qed.

Lemma upload_event_released connectionId st ev :
  connectionId ∉ activeConnections st \/ releases ev = true ->
  connectionId ∉ activeConnections (upload_event connectionId st ev).
Proof.
  intros H. destruct ev; cbn [upload_event releases] in *;
    try destruct (sent st); cbn [activeConnections]; set_solver.
Qed.

(** X7.  Whatever the request stream delivers and in whatever order, an
    upload sends at most one reply, its connection id is out of
    [activeConnections] as soon as the stream has ended, closed or
    failed, and the other connections of the set are untouched. *)
Theorem upload_replies_once_and_releases
    (connectionId : string) (conns : gset string) (events : list ReqEvent) :
  let st := upload connectionId conns events in
  (length (sent st) <= 1)%nat
  /\ (existsb releases events = true ->
      (connectionId ∉ activeConnections st))
  /\ (forall c, c <> connectionId ->
                (c ∈ activeConnections st <-> c ∈ conns)).
Proof.
  intros st. subst st. unfold upload.
  induction events as [| ev events IH] using rev_ind.
  - cbn. split; [lia|]. split; [discriminate|].
    intros c Hc. set_solver.
  - rewrite fold_left_app. cbn [fold_left].
    destruct IH as (Hsent & Hrel & Hother).
    split; [apply upload_event_sent_once, Hsent|]. split.
    + rewrite existsb_app. cbn [existsb]. rewrite orb_false_r.
      intros H. apply upload_event_released.
      apply orb_true_iff in H as [H | H]; [left; apply Hrel, H | right; exact H].
    + intros c Hc. rewrite upload_event_conns by exact Hc.
      apply Hother, Hc.
Qed.

Lemma upload_replies_once_and_releases_witness :
  "k3j9x0q1z"%string
  ∉ activeConnections
      (upload "k3j9x0q1z" {["a1b2c3d4e"%string]}
         [OnData [Byte.x78; Byte.x79]; OnError; OnEnd 12; OnClose]).
Proof.
  apply (proj1 (proj2 (upload_replies_once_and_releases "k3j9x0q1z"
                         {["a1b2c3d4e"%string]}
                         [OnData [Byte.x78; Byte.x79]; OnError; OnEnd 12;
                          OnClose]))).
  reflexivity.
Defined.

End UploadFacts.

Module StreamFacts.
Import Transfer Streaming.
Local Open Scope Z_scope.

Lemma sendChunk_keeps_ok (size : Z) (signals : list Signal) :
  forall st : Stream,
  stream_ok size st -> stream_ok size (sendChunk size signals st).
Proof.
  pose proof TransferFacts.chunkSize_pos as Hc.
  assert (Hstop : forall st, stream_ok size st ->
            stream_ok size (mkStream (bytesSent st) false (written st) true)).
  { intros st (Hb & Hw & He). split; [exact Hb|]. split; [exact Hw|].
    reflexivity. }
  induction signals as [| sig rest IH]; intros st Hok; cbn [sendChunk];
    destruct ((bytesSent st >=? size) || negb (active st)) eqn:Estop;
    try (apply Hstop, Hok); [exact Hok|].
  destruct Hok as (Hb & Hw & He).
  apply orb_false_iff in Estop as [Hlt Hact].
  rewrite Z.geb_leb in Hlt. apply Z.leb_gt in Hlt.
  assert (Hchunk :
    Forall (fun b => 0 < byteLength b <= chunkSize)
      (written st ++
       [generateRandomData (Z.min chunkSize (size - bytesSent st))])).
  { apply Forall_app. split; [exact Hw|].
    repeat constructor; cbn [generateRandomData byteLength]; lia. }
  destruct sig.
  - apply IH. split; [cbn; lia|]. split; [exact Hchunk | exact He].
  - assert (Hwait : forall a,
      stream_ok size
        (mkStream (bytesSent st) a
           (written st ++
            [generateRandomData (Z.min chunkSize (size - bytesSent st))])
           (ended st))).
    { intros a. split; [cbn; lia|]. split; [exact Hchunk|].
      cbn [ended active]. intros Hended. apply He in Hended.
      rewrite Hended in Hact. discriminate. }
    destruct rest as [| [| |] rest']; try (apply IH, Hwait).
    apply Hwait.
  - apply IH. split; [cbn; lia|]. split; [exact Hw | reflexivity].
Qed.

Lemma worker_sendChunk_keeps_ok (size : Z) (signals : list Signal) :
  forall st : WorkerStream,
  worker_stream_ok size st ->
  worker_stream_ok size
    (worker_sendChunk (mkBuffer size) size signals st).
Proof.
  pose proof TransferFacts.worker_chunkSize_pos as Hc.
  induction signals as [| sig rest IH]; intros st (Hb & Hw);
    cbn [worker_sendChunk];
    destruct (Z.geb_spec (offset st) size) as [Hge | Hlt];
    try (split; cbn [offset w_written]; auto; fail).
  assert (Hchunk :
    Forall (fun b => 0 < byteLength b <= worker_chunkSize)
      (w_written st ++
       [slice (mkBuffer size) (offset st)
          (Z.min (offset st + worker_chunkSize) size)])).
  { apply Forall_app. split; [exact Hw|]. repeat constructor;
      rewrite TransferFacts.slice_length; lia. }
  destruct sig.
  - apply IH. split; cbn [offset w_written]; [lia | exact Hchunk].
  - assert (Hwait :
      worker_stream_ok size
        (mkWorkerStream (offset st)
           (w_written st ++
            [slice (mkBuffer size) (offset st)
               (Z.min (offset st + worker_chunkSize) size)])
           (w_ended st))).
    { split; cbn [offset w_written]; [lia | exact Hchunk]. }
    destruct rest as [| [| |] rest']; try (apply IH, Hwait).
    exact Hwait.
  - apply IH. split; assumption.
Qed.

(** X8.  Whatever the size parameter and the behaviour of the transport,
    a download never hands the transport an empty chunk or one above
    64 KiB, never counts more bytes than it announced, and has released
    its connection when it ends; the worker, whatever it served before,
    either throws on a negative size or announces the size it chose,
    reads chunks of at most 256 KiB and never moves its offset past
    that size. *)
Theorem download_chunks_are_bounded
    (q : option string) (signals : list Signal)
    (reqs : list (option string * list Signal)) :
  (let r := download q signals in
   Forall (fun b => 0 < byteLength b <= 64 * 1024) (written (stream r))
   /\ 0 <= bytesSent (stream r) <= Z.max 0 (contentLength r)
   /\ (ended (stream r) = true -> active (stream r) = false))
  /\ match snd (worker_download (worker_cache_after ∅ reqs) q signals) with
     | Streamed announced st =>
       announced = worker_requested_size q
       /\ Forall (fun b => 0 < byteLength b <= 256 * 1024) (w_written st)
       /\ 0 <= offset st <= announced
     | Thrown => worker_requested_size q < 0
     end.
Proof.
  split.
  - cbv zeta. unfold download. cbn [stream contentLength].
    destruct (sendChunk_keeps_ok (requested_size q) signals
                (mkStream 0 true [] false)) as (Hb & Hw & He).
    + split; [cbn; lia|]. split; [constructor | discriminate].
    + auto.
  - unfold worker_download, getTestData. cbv zeta.
    rewrite TransferFacts.worker_cache_after_sizes,
      TransferFacts.cache_after_lookup.
    set (size := worker_requested_size q).
    assert (Hrun : 0 <= size ->
              worker_stream_ok size
                (worker_sendChunk (mkBuffer size) size signals
                   (mkWorkerStream 0 [] false))).
    { intros Hpos. apply worker_sendChunk_keeps_ok.
      split; [cbn; lia | constructor]. }
    case_decide as Hhit.
    + cbn [snd]. destruct (Hrun (proj2 Hhit)) as (Hb & Hw).
      split; [reflexivity|]. split; [exact Hw | lia].
    + destruct (Z.ltb_spec size 0) as [Hneg | Hpos]; cbn [snd];
        [exact Hneg|].
      destruct (Hrun Hpos) as (Hb & Hw).
      split; [reflexivity|]. split; [exact Hw | lia].
Qed.

Lemma download_chunks_are_bounded_witness :
  active (stream (download (Some "5"%string) [WriteFlushed])) = false.
Proof.
  apply (proj2 (proj2 (proj1
           (download_chunks_are_bounded (Some "5"%string) [WriteFlushed] [])))).
  reflexivity.
Defined.

Lemma sendChunk_inactive (size : Z) (signals : list Signal) (st : Stream) :
  active st = false ->
  sendChunk size signals st = mkStream (bytesSent st) false (written st) true.
Proof.
  intros Hact. destruct signals; cbn [sendChunk]; rewrite Hact;
    cbn [negb]; rewrite orb_true_r; reflexivity.
Qed.

Lemma sendChunk_closed (size : Z) (rest : list Signal) (st : Stream) :
  sendChunk size (Closed :: rest) st
  = mkStream (bytesSent st) false (written st) true.
Proof.
  cbn [sendChunk].
  destruct ((bytesSent st >=? size) || negb (active st)); [reflexivity|].
  rewrite sendChunk_inactive by reflexivity. reflexivity.
Qed.

Lemma sendChunk_nil (size : Z) (st : Stream) :
  bytesSent (sendChunk size [] st) = bytesSent st
  /\ written (sendChunk size [] st) = written st.
Proof.
  cbn [sendChunk].
  destruct ((bytesSent st >=? size) || negb (active st)); split; reflexivity.
Qed.

Lemma awaits_drain_cons (sig next : Signal) (rest : list Signal) :
  awaits_drain (sig :: next :: rest) = awaits_drain (next :: rest).
Proof. reflexivity. Qed.

(** X9.  The first ['close'] of the request.  Whatever the transport
    would do afterwards, the test server writes nothing more and the
    connection is released: bytes counted and chunks written are those
    of the stream up to the close.  The response is ended, except when
    the close arrives while the handler waits for ['drain'] after a
    queued write: [sendChunk] is then never called again, and a response
    that had not ended stays open. *)
Theorem sendChunk_stops_at_close
    (size : Z) (before after : list Signal) (st : Stream) :
  ~ In Closed before ->
  let upto := sendChunk size before st in
  sendChunk size (before ++ Closed :: after) st
  = mkStream (bytesSent upto) false (written upto)
      (if awaits_drain before then ended upto else true).
Proof.
  cbv zeta. revert st.
  induction before as [| sig before IH]; intros st Hopen.
  - cbn [app awaits_drain last]. rewrite sendChunk_closed.
    destruct (sendChunk_nil size st) as [-> ->]. reflexivity.
  - assert (Hrest : ~ In Closed before)
      by (intros Hin; apply Hopen; right; exact Hin).
    cbn [app sendChunk].
    destruct ((bytesSent st >=? size) || negb (active st)) eqn:Estop.
    { cbn [bytesSent written ended].
      destruct (awaits_drain (sig :: before)); reflexivity. }
    destruct sig.
    + rewrite (IH _ Hrest).
      destruct before as [| next before']; [|reflexivity].
      cbn [awaits_drain last]. reflexivity.
    + destruct before as [| next before'].
      * cbn [app awaits_drain last sendChunk bytesSent active].
        rewrite Estop. reflexivity.
      * destruct next;
          try (cbn [app]; rewrite (IH _ Hrest), awaits_drain_cons;
               reflexivity).
        exfalso. apply Hrest. left. reflexivity.
    + exfalso. apply Hopen. left. reflexivity.
Qed.

Lemma sendChunk_stops_at_close_witness :
  sendChunk 131072 ([WriteFlushed; WriteQueued] ++ Closed :: [WriteFlushed])
    (mkStream 0 true [] false)
  = mkStream 65536 false [mkBuffer 65536; mkBuffer 65536] false.
Proof.
  apply (sendChunk_stops_at_close 131072 [WriteFlushed; WriteQueued]
           [WriteFlushed] (mkStream 0 true [] false)).
  intros [H | [H | []]]; discriminate H.
Defined.

(** X10.  A size parameter that parses to a negative number is not
    rejected by the test server, which announces that number as
    Content-Length and ends with an empty body, while the worker's
    handler throws on it before caching anything. *)
Theorem negative_size_is_served_empty_or_thrown
    (q : option string) (n : Z) (signals : list Signal)
    (reqs : list (option string * list Signal)) :
  parseInt q = Some n ->
  n < 0 ->
  download q signals = mkResponse 200 n (mkStream 0 false [] true)
  /\ worker_download (worker_cache_after ∅ reqs) q signals
     = (worker_cache_after ∅ reqs, Thrown).
Proof.
  intros Hparse Hneg.
  assert (Hsize : requested_size q = n).
  { unfold requested_size, or_default. rewrite Hparse.
    destruct (Z.eqb_spec n 0); [lia|].
    destruct (Z.gtb_spec n MAX_SIZE); [|reflexivity].
    assert (0 < MAX_SIZE) by reflexivity. lia. }
  split.
  - unfold download. rewrite Hsize.
    destruct signals; cbn [sendChunk bytesSent active];
      (destruct (Z.geb_spec 0 n); [reflexivity | lia]).
  - unfold worker_download. rewrite TransferFacts.worker_requested_size_eq,
      Hsize.
    unfold getTestData.
    rewrite TransferFacts.worker_cache_after_sizes,
      TransferFacts.cache_after_lookup.
    rewrite decide_False by lia.
    destruct (Z.ltb_spec n 0); [reflexivity | lia].
Qed.

Lemma negative_size_is_served_empty_or_thrown_witness :
  download (Some "-5"%string) [WriteFlushed]
  = mkResponse 200 (-5) (mkStream 0 false [] true)
  /\ worker_download
       (worker_cache_after ∅ [(Some "7"%string, [WriteFlushed])])
       (Some "-5"%string) [WriteFlushed]
     = (worker_cache_after ∅ [(Some "7"%string, [WriteFlushed])], Thrown).
Proof.
  apply (negative_size_is_served_empty_or_thrown (Some "-5"%string) (-5)
           [WriteFlushed] [(Some "7"%string, [WriteFlushed])]).
  - reflexivity.
  - lia.
Defined.

(** X11.  The payload cache answers a repeated size from memory: once a
    non-negative size has been requested, requesting it again returns a
    buffer of that length and leaves the cache as it was, whatever was
    requested in between. *)
Theorem getTestData_hits_after_first_request (sizes : list Z) (size : Z) :
  size ∈ sizes ->
  0 <= size ->
  getTestData (cache_after ∅ sizes) size
  = (cache_after ∅ sizes, Some (mkBuffer size)).
Proof.
  intros Hin Hpos. unfold getTestData.
  rewrite TransferFacts.cache_after_lookup.
  rewrite decide_True by tauto. reflexivity.
Qed.

Lemma getTestData_hits_after_first_request_witness :
  getTestData (cache_after ∅ [1024; 4096; 16]) 4096
  = (cache_after ∅ [1024; 4096; 16], Some (mkBuffer 4096)).
Proof.
  apply (getTestData_hits_after_first_request [1024; 4096; 16] 4096).
  - set_solver.
  - lia.
Defined.

End StreamFacts.

Module PoolFacts.
Import Pool.
Local Open Scope nat_scope.

Lemma fork_ok size deaths c :
  pool_ok size deaths c -> pool_ok (S size) deaths (fork c).
Proof.
  intros (Hlen & Hnd & Hlt & Hnext). unfold pool_ok, fork.
  cbn [workers nextId]. rewrite Forall_forall in Hlt.
  split; [rewrite length_app; cbn; lia|]. split; [|split].
  - apply NoDup_app. split; [exact Hnd|]. split.
    + intros w Hw Hin. apply list_elem_of_singleton in Hin. subst w.
      specialize (Hlt _ Hw). lia.
    + apply NoDup_singleton.
  - apply Forall_app. split.
    + apply Forall_forall. intros w Hw. specialize (Hlt _ Hw). lia.
    + repeat constructor; lia.
  - lia.
Qed.

Lemma start_ok (n : nat) :
  pool_ok n 0 (Nat.iter n fork (mkCluster [] 1)).
Proof.
  induction n as [| n IH]; cbn [Nat.iter].
  - repeat split; try constructor.
  - apply fork_ok. exact IH.
Qed.

Lemma filter_out_length (w : nat) (l : list nat) :
  NoDup l -> w ∈ l ->
  S (length (filter (fun x => x <> w) l)) = length l.
Proof.
  induction 1 as [| x l Hx Hnd IH]; intros Hin; [inversion Hin|].
  rewrite filter_cons. apply elem_of_cons in Hin as [<- | Hin].
  - rewrite decide_False by tauto. cbn [length]. f_equal.
    clear IH Hnd. induction l as [| y l IHl]; [reflexivity|].
    rewrite filter_cons. apply not_elem_of_cons in Hx as [Hne Hx].
    rewrite decide_True by congruence. cbn [length]. f_equal. apply IHl, Hx.
  - rewrite decide_True by (intros ->; contradiction).
    cbn [length]. f_equal. apply IH, Hin.
Qed.

Lemma exit_ok size deaths w c :
  w ∈ workers c ->
  pool_ok size deaths c -> pool_ok size (S deaths) (on_exit w c).
Proof.
  intros Hw (Hlen & Hnd & Hlt & Hnext).
  pose proof (filter_out_length w (workers c) Hnd Hw) as Hout.
  destruct size as [| size]; [rewrite Hlen in Hout; discriminate|].
  unfold on_exit.
  replace (S deaths) with (S deaths + 0) by lia.
  assert (Hmid : pool_ok size (S deaths)
                   (mkCluster (filter (fun x => x <> w) (workers c))
                      (nextId c))).
  { unfold pool_ok. cbn [workers nextId]. split; [lia|]. split; [|split].
    - apply NoDup_filter, Hnd.
    - rewrite Forall_forall in Hlt |- *. intros x Hx.
      apply list_elem_of_filter in Hx as [_ Hx]. apply Hlt, Hx.
    - lia. }
  rewrite Nat.add_0_r. apply fork_ok. exact Hmid.
Qed.

(** X12.  On a machine with [numCPUs] cores the pool starts with
    min(numCPUs, 4) workers and, after any number of worker deaths,
    still has exactly that many: every death is followed by one fork,
    without limit, and a replacement always gets an id no worker had
    before. *)
Theorem pool_keeps_its_size (numCPUs deaths : nat) (c : Cluster) :
  pool_reachable numCPUs deaths c ->
  length (workers c) = Nat.min numCPUs 4
  /\ length (workers c) <= 4
  /\ NoDup (workers c)
  /\ Forall (fun w => 1 <= w < nextId c) (workers c)
  /\ nextId c = 1 + Nat.min numCPUs 4 + deaths.
Proof.
  intros Hreach.
  assert (Hok : pool_ok (Nat.min numCPUs 4) deaths c).
  { induction Hreach as [| deaths c c' _ IH Hstep].
    - apply start_ok.
    - destruct Hstep as [w c Hw]. apply exit_ok; assumption. }
  destruct Hok as (Hlen & Hnd & Hlt & Hnext).
  repeat split; try assumption. lia.
Qed.

Lemma pool_keeps_its_size_witness :
  length (workers (on_exit 2 (start 8))) = 4
  /\ workers (on_exit 2 (start 8)) = [1; 3; 4; 5].
Proof.
  split; [|reflexivity].
  apply (pool_keeps_its_size 8 1 (on_exit 2 (start 8))).
  apply (Pool_next 8 0 (start 8)); [apply Pool_started|].
  apply Worker_exit. vm_compute. set_solver.
Defined.

End PoolFacts.

Module ClientFacts.
Import Quality Client.
Local Open Scope Z_scope.

(** *** The country filter *)

Lemma insert_matching cc x l :
  matching cc x = true ->
  Js.insert (fun a b => country_first cc a b <=? 0) x l = x :: l.
Proof.
  intros Hx. destruct l as [| y l]; [reflexivity|]. cbn [Js.insert].
  unfold country_first. unfold matching in Hx. rewrite Hx.
  cbn [negb andb]. destruct (String.eqb (country y) cc); reflexivity.
Qed.

Lemma insert_other cc x (front back : list Server) :
  matching cc x = false ->
  forallb (matching cc) front = true ->
  forallb (fun s => negb (matching cc s)) back = true ->
  Js.insert (fun a b => country_first cc a b <=? 0) x (front ++ back)
  = front ++ x :: back.
Proof.
  intros Hx Hfront Hback. unfold matching in *.
  induction front as [| y front IH]; cbn [app].
  - destruct back as [| z back]; [reflexivity|]. cbn [Js.insert].
    cbn [forallb] in Hback. apply andb_true_iff in Hback as [Hz _].
    apply negb_true_iff in Hz.
    unfold country_first. rewrite Hx, Hz. reflexivity.
  - cbn [forallb] in Hfront. apply andb_true_iff in Hfront as [Hy Hfront].
    cbn [Js.insert]. unfold country_first at 1. rewrite Hx, Hy.
    cbn [negb andb Z.leb Z.compare]. f_equal. apply IH, Hfront.
Qed.

Lemma forallb_filter_self {A} (f : A -> bool) (l : list A) :
  forallb f (List.filter f l) = true.
Proof.
  apply forallb_forall. intros x Hx. apply filter_In in Hx. tauto.
Qed.

(** X13.  Sorting the server list for a country moves the servers of
    that country to the front and changes nothing else: the result is
    the servers of the country followed by the others, each group in its
    previous order. *)
Theorem filterServersByCountry_is_stable_partition
    (countryCode : string) (testServers : list Server) :
  filterServersByCountry countryCode testServers
  = List.filter (matching countryCode) testServers
    ++ List.filter (fun s => negb (matching countryCode s)) testServers.
Proof.
  unfold filterServersByCountry.
  induction testServers as [| x l IH]; [reflexivity|].
  rewrite JsFacts.sort_cons, IH. cbn [List.filter].
  destruct (matching countryCode x) eqn:Hx; cbn [negb].
  - apply insert_matching, Hx.
  - apply insert_other; [exact Hx | apply forallb_filter_self ..].
Qed.

(** *** The latency probes *)

Section Probes.

Variable probe : nat -> option Q.

Local Open Scope Q_scope.

Lemma improves_true (l : Q) (best : option Server) (bestLatency : option Q) :
  best_agrees best bestLatency ->
  improves l bestLatency = true ->
  forall s, best = Some s -> l < latency s.
Proof.
  intros Hag Himp s ->. destruct bestLatency as [bl|]; [|contradiction].
  cbn in Hag. subst bl. apply QualityFacts.Qgtb_spec. exact Himp.
Qed.

Lemma improves_false (l : Q) (best : option Server) (bestLatency : option Q) :
  best_agrees best bestLatency ->
  improves l bestLatency = false ->
  exists s, best = Some s /\ latency s <= l.
Proof.
  intros Hag Himp. destruct bestLatency as [bl|]; [|discriminate].
  destruct best as [s|]; [|contradiction]. cbn in Hag. subst bl.
  exists s. split; [reflexivity|].
  apply Qnot_lt_le. intros Hlt.
  apply QualityFacts.Qgtb_spec in Hlt. cbn in Himp. congruence.
Qed.

(** What the loop returns, for a slice that starts at position [i]. *)
Lemma probe_from_spec (slice : list Server) :
  forall (i : nat) (best : option Server) (bestLatency : option Q),
  best_agrees best bestLatency ->
  fst (probe_from probe i slice best bestLatency)
  = imap (fun k s => match probe (i + k) with
                     | Some l => set_latency l s
                     | None => s
                     end) slice
  /\ match snd (probe_from probe i slice best bestLatency) with
     | Some s' =>
       (forall s, best = Some s -> latency s' <= latency s)
       /\ (forall k l, (k < length slice)%nat -> probe (i + k) = Some l ->
                       latency s' <= l)
       /\ (Some s' = best
           \/ exists k s0,
                slice !! k = Some s0
                /\ probe (i + k) = Some (latency s')
                /\ s' = set_latency (latency s') s0)
     | None =>
       best = None
       /\ forall k, (k < length slice)%nat -> probe (i + k) = None
     end.
Proof.
  induction slice as [| server rest IH]; intros i best bestLatency Hag.
  - cbn [probe_from fst snd imap]. split; [reflexivity|].
    destruct best as [s|].
    + split; [intros ? [= <-]; apply Qle_refl|].
      split; [intros k l Hk; cbn in Hk; lia | left; reflexivity].
    + split; [reflexivity | intros k Hk; cbn in Hk; lia].
  - assert (Hshift : forall k, (i + S k = S i + k)%nat) by (intros; lia).
    assert (Htail :
      imap (fun k s => match probe (S i + k) with
                       | Some l => set_latency l s
                       | None => s
                       end) rest
      = imap ((fun k s => match probe (i + k) with
                          | Some l => set_latency l s
                          | None => s
                          end) ∘ S) rest).
    { apply imap_ext. intros k s _. cbn. rewrite Hshift. reflexivity. }
    cbn [probe_from]. rewrite imap_cons, Nat.add_0_r, <- Htail.
    destruct (probe i) as [l0|] eqn:Ep.
    + destruct (improves l0 bestLatency) eqn:Eimp.
      * specialize (IH (S i) (Some (set_latency l0 server)) (Some l0) eq_refl).
        destruct (probe_from probe (S i) rest (Some (set_latency l0 server))
                    (Some l0)) as [rest' b].
        cbn [fst snd] in *. destruct IH as [Hlist Hbest].
        split; [f_equal; exact Hlist|].
        destruct b as [s'|]; [|destruct Hbest as [[=] _]].
        destruct Hbest as (Hle & Hmin & Horigin).
        specialize (Hle _ eq_refl). cbn [latency set_latency] in Hle.
        split; [|split].
        -- intros s Hs.
           pose proof (improves_true l0 best bestLatency Hag Eimp s Hs).
           apply Qlt_le_weak. eapply Qle_lt_trans; eassumption.
        -- intros [| k] l Hk Hl.
           ++ rewrite Nat.add_0_r, Ep in Hl. injection Hl as <-. exact Hle.
           ++ rewrite Hshift in Hl. apply (Hmin k l); [cbn in Hk; lia | exact Hl].
        -- right. destruct Horigin as [[= ->] | (k & s0 & Hk & Hp & Hs)].
           ++ exists 0%nat, server. split; [reflexivity|].
              rewrite Nat.add_0_r. split; [exact Ep | reflexivity].
           ++ exists (S k), s0. split; [exact Hk|].
              rewrite Hshift. split; assumption.
      * destruct (improves_false l0 best bestLatency Hag Eimp)
          as (sb & -> & Hsb).
        specialize (IH (S i) (Some sb) bestLatency Hag).
        destruct (probe_from probe (S i) rest (Some sb) bestLatency)
          as [rest' b].
        cbn [fst snd] in *. destruct IH as [Hlist Hbest].
        split; [f_equal; exact Hlist|].
        destruct b as [s'|]; [|destruct Hbest as [[=] _]].
        destruct Hbest as (Hle & Hmin & Horigin).
        split; [exact Hle|]. split.
        -- intros [| k] l Hk Hl.
           ++ rewrite Nat.add_0_r, Ep in Hl. injection Hl as <-.
              eapply Qle_trans; [apply (Hle sb eq_refl) | exact Hsb].
           ++ rewrite Hshift in Hl. apply (Hmin k l); [cbn in Hk; lia | exact Hl].
        -- destruct Horigin as [Heq | (k & s0 & Hk & Hp & Hs)];
             [left; exact Heq|].
           right. exists (S k), s0. split; [exact Hk|].
           rewrite Hshift. split; assumption.
    + specialize (IH (S i) best bestLatency Hag).
      destruct (probe_from probe (S i) rest best bestLatency) as [rest' b].
      cbn [fst snd] in *. destruct IH as [Hlist Hbest].
      split; [f_equal; exact Hlist|].
      destruct b as [s'|].
      * destruct Hbest as (Hle & Hmin & Horigin).
        split; [exact Hle|]. split.
        -- intros [| k] l Hk Hl.
           ++ rewrite Nat.add_0_r, Ep in Hl. discriminate.
           ++ rewrite Hshift in Hl. apply (Hmin k l); [cbn in Hk; lia | exact Hl].
        -- destruct Horigin as [Heq | (k & s0 & Hk & Hp & Hs)];
             [left; exact Heq|].
           right. exists (S k), s0. split; [exact Hk|].
           rewrite Hshift. split; assumption.
      * destruct Hbest as [Hnone Hall]. split; [exact Hnone|].
        intros [| k] Hk.
        -- rewrite Nat.add_0_r. exact Ep.
        -- rewrite Hshift. apply Hall. cbn in Hk. lia.
Qed.

Lemma imap_unchanged (l : list Server) :
  forall f : nat -> Server -> Server,
  (forall k s, f k s = s) -> imap f l = l.
Proof.
  induction l as [| x l IH]; intros f Hf; [reflexivity|].
  rewrite imap_cons, Hf. f_equal. apply IH. intros k s. apply Hf.
Qed.

Lemma probed_list (testServers : list Server) :
  imap (fun k s => match probe (0 + k) with
                   | Some l => set_latency l s
                   | None => s
                   end) (take 5 testServers) ++ drop 5 testServers
  = imap (probed_entry probe) testServers.
Proof.
  rewrite <- (take_drop 5 testServers) at 3. rewrite imap_app. f_equal.
  - apply imap_ext. intros k s Hk. apply lookup_lt_Some in Hk.
    rewrite length_take in Hk. unfold probed_entry.
    replace (k <? 5)%nat with true by (symmetry; apply Nat.ltb_lt; lia).
    reflexivity.
  - destruct (decide (length testServers <= 5)%nat) as [Hshort | Hlong].
    + rewrite drop_ge by exact Hshort. reflexivity.
    + rewrite length_take, Nat.min_l by lia.
      symmetry. apply imap_unchanged. intros k s. unfold probed_entry.
      replace (5 + k <? 5)%nat with false
        by (symmetry; apply Nat.ltb_ge; lia).
      reflexivity.
Qed.

(** X14.  [selectBestServer] on a list that is not empty: the first five
    servers get the latency their probe measured (a server whose probe
    is rejected, and every server after the fifth, is left as it was),
    and a server is always selected.  The selected server is one of the
    first five of the list as it is afterwards, no successful probe
    measured less than its latency, and either its own probe measured
    that latency or every probe was rejected and it is the first server
    of the list. *)
Theorem selectBestServer_selects_fastest_probed
    (testServers : list Server) (selectedServer : option Server) :
  testServers <> [] ->
  let after := selectBestServer testServers selectedServer probe in
  fst after = imap (probed_entry probe) testServers
  /\ exists s k,
       snd after = Some s
       /\ fst after !! k = Some s
       /\ (k < 5)%nat
       /\ (forall j l, (j < 5)%nat -> (j < length testServers)%nat ->
                       probe j = Some l -> latency s <= l)
       /\ (probe k = Some (latency s)
           \/ (k = 0%nat
               /\ forall j, (j < 5)%nat -> (j < length testServers)%nat ->
                            probe j = None)).
Proof.
  intros Hne after. subst after.
  assert (Hsel :
    selectBestServer testServers selectedServer probe
    = let '(probed, bestServer) :=
        probe_from probe 0 (take 5 testServers) None None in
      (probed ++ drop 5 testServers,
       match bestServer with
       | Some s => Some s
       | None => head (probed ++ drop 5 testServers)
       end)).
  { destruct testServers; [contradiction | reflexivity]. }
  rewrite Hsel. clear Hsel.
  pose proof (probe_from_spec (take 5 testServers) 0 None None I)
    as [Hlist Hbest].
  destruct (probe_from probe 0 (take 5 testServers) None None)
    as [probed b].
  cbn [fst snd] in *.
  assert (Hafter : probed ++ drop 5 testServers
                   = imap (probed_entry probe) testServers).
  { rewrite Hlist. apply probed_list. }
  split; [exact Hafter|]. rewrite Hafter.
  assert (Hlen : forall j, (j < 5)%nat -> (j < length testServers)%nat ->
                           (j < length (take 5 testServers))%nat).
  { intros j H5 Hj. rewrite length_take. lia. }
  destruct b as [s'|].
  - destruct Hbest as (_ & Hmin & [[=] | (k & s0 & Hk & Hp & Hs)]).
    apply lookup_take_Some in Hk as [Hk Hk5].
    exists s', k. split; [reflexivity|]. split; [|split; [exact Hk5|split]].
    + rewrite list_lookup_imap, Hk. cbn. unfold probed_entry.
      replace (k <? 5)%nat with true by (symmetry; apply Nat.ltb_lt; lia).
      cbn in Hp. rewrite Hp. congruence.
    + intros j l H5 Hj Hl. apply (Hmin j l); [apply Hlen; assumption | exact Hl].
    + left. exact Hp.
  - destruct Hbest as [_ Hnone].
    assert (Hall : forall j, (j < 5)%nat -> (j < length testServers)%nat ->
                             probe j = None).
    { intros j H5 Hj. apply (Hnone j). apply Hlen; assumption. }
    destruct testServers as [| first others]; [contradiction|].
    assert (H0 : probe 0%nat = None).
    { apply Hall; [lia | cbn; lia]. }
    assert (Hfirst : probed_entry probe 0 first = first).
    { unfold probed_entry. cbn [Nat.ltb Nat.leb]. rewrite H0. reflexivity. }
    exists first, 0%nat. rewrite imap_cons, Hfirst.
    split; [reflexivity|]. split; [reflexivity|]. split; [lia|]. split.
    + intros j l H5 Hj Hl. rewrite (Hall j H5 Hj) in Hl. discriminate.
    + right. split; [reflexivity | exact Hall].
Qed.

End Probes.

Lemma selectBestServer_selects_fastest_probed_witness :
  fst (selectBestServer
         [mkServer 1 "Primary Server" "New York, USA" "US" "localhost"
            3000 0 0;
          mkServer 2 "Backup Server" "London, UK" "GB"
            "london.speedtest.example.com" 3000 0 0]
         None (fun k => if (k =? 0)%nat then None else Some 31%Q))
  = [mkServer 1 "Primary Server" "New York, USA" "US" "localhost"
       3000 0 0;
     mkServer 2 "Backup Server" "London, UK" "GB"
       "london.speedtest.example.com" 3000 0 31].
Proof.
  refine (proj1 (selectBestServer_selects_fastest_probed _ _ None _)).
  discriminate.
Defined.

(** *** Means of samples *)

Section Means.

Import Lqa.
Local Open Scope Q_scope.
















End Means.

End ClientFacts.

(* --------------------------------------------------------------------- *)
(** ** The result history of the page *)

Module HistoryFacts.
Import Quality Orchestrator Client.

Lemma deliver_snoc (s : SpeedTest) (events : list Event) (ev : Event) :
  deliver s (events ++ [ev]) = step (deliver s events) ev.
Proof. unfold deliver. rewrite fold_left_app. reflexivity. Qed.

(** [history.unshift(results)] and the cut to fifty are one [take]. *)
Lemma saveResults_take (id clock : string) (r : TestResults)
    (stored : list HistoryEntry) :
  saveResults id clock r stored
  = take 50 (mkHistoryEntry id clock r :: stored).
Proof.
  unfold saveResults. cbv zeta.
  destruct (50 <? length (mkHistoryEntry id clock r :: stored))%nat eqn:E;
    [reflexivity|].
  apply Nat.ltb_ge in E. rewrite take_ge by exact E. reflexivity.
Qed.

(** A delivery leaves the history and the posted results alone, unless
    it settles the upload of a waiting run without error; then one entry
    with the id of that run is saved and posted. *)
Lemma step_saves (s : SpeedTest) (ev : Event) :
  (history (step s ev) = history s /\ posted (step s ev) = posted s)
  \/ exists id o elapsed random clock run results,
       ev = UploadSettled id o elapsed random clock
       /\ o <> UploadError
       /\ find_run id AwaitUpload (runs s) = Some run
       /\ history (step s ev) = saveResults id clock results (history s)
       /\ posted (step s ev)
          = posted s ++ [mkHistoryEntry id clock results].
Proof.
  destruct ev as [fresh | id pings | id e | id o elapsed | id bytes
                  | id o elapsed random clock]; cbn [step].
  - left. unfold startTest, stopTest. destruct (isTesting s); split; reflexivity.
  - left. destruct (find_run id AwaitPing (runs s)); [|split; reflexivity].
    destruct pings; split; reflexivity.
  - left. destruct (find_run id AwaitDownload (runs s)); split; reflexivity.
  - left. destruct (find_run id AwaitDownload (runs s)); [|split; reflexivity].
    destruct o; split; reflexivity.
  - left. destruct (find_run id AwaitUpload (runs s)); split; reflexivity.
  - destruct (find_run id AwaitUpload (runs s)) as [run|] eqn:Efind;
      [|left; split; reflexivity].
    destruct o; [right | right | left; split; reflexivity].
    + do 7 eexists. split; [reflexivity|]. split; [discriminate|].
      split; [exact Efind|]. split; reflexivity.
    + do 7 eexists. split; [reflexivity|]. split; [discriminate|].
      split; [exact Efind|]. split; reflexivity.
Qed.

Lemma set_run_ids (id : string) (f : Run -> Run) (rs : list Run) :
  (forall r, testId (f r) = testId r) ->
  map testId (set_run id f rs) = map testId rs.
Proof.
  intros Hf. unfold set_run. rewrite map_map. apply map_ext.
  intros r. destruct (String.eqb (testId r) id); [apply Hf | reflexivity].
Qed.

(** Only a click that starts a run adds a run; no delivery renames or
    removes one. *)
Lemma step_run_ids (s : SpeedTest) (ev : Event) :
  map testId (runs (step s ev))
  = map testId (runs s)
    ++ match ev with
       | Click fresh => if isTesting s then [] else [fresh]
       | _ => []
       end.
Proof.
  destruct ev as [fresh | id pings | id e | id o elapsed | id bytes
                  | id o elapsed random clock]; cbn [step].
  - unfold startTest, stopTest. destruct (isTesting s); cbn [runs].
    + rewrite app_nil_r. reflexivity.
    + rewrite map_app. reflexivity.
  - rewrite app_nil_r.
    destruct (find_run id AwaitPing (runs s)); [|reflexivity].
    destruct pings; cbn [runs]; apply set_run_ids; reflexivity.
  - rewrite app_nil_r.
    destruct (find_run id AwaitDownload (runs s)); [|reflexivity].
    cbn [runs]. apply set_run_ids. reflexivity.
  - rewrite app_nil_r.
    destruct (find_run id AwaitDownload (runs s)); [|reflexivity].
    destruct o; cbn [runs]; apply set_run_ids; reflexivity.
  - rewrite app_nil_r.
    destruct (find_run id AwaitUpload (runs s)); [|reflexivity].
    cbn [runs]. apply set_run_ids. reflexivity.
  - rewrite app_nil_r.
    destruct (find_run id AwaitUpload (runs s)); [|reflexivity].
    destruct o; cbn [runs]; apply set_run_ids; reflexivity.
Qed.

Lemma find_run_id (id : string) (at_ : Pc) (rs : list Run) (run : Run) :
  find_run id at_ rs = Some run -> id ∈ map testId rs.
Proof.
  unfold find_run. intros Hfind. apply find_some in Hfind as [Hin Hb].
  apply andb_prop in Hb as [Hid _]. apply String.eqb_eq in Hid. subst id.
  apply list_elem_of_In. apply in_map. exact Hin.
Qed.

(** Every run was started by a click. *)
Lemma runs_were_clicked (stored : list HistoryEntry) (events : list Event) :
  forall id,
  id ∈ map testId (runs (deliver (initial stored) events)) ->
  id ∈ clicked events.
Proof.
  induction events as [| ev events IH] using rev_ind; intros id Hid.
  - cbn in Hid. inversion Hid.
  - rewrite deliver_snoc, step_run_ids in Hid.
    unfold clicked. rewrite omap_app. fold (clicked events).
    apply elem_of_app in Hid as [Hid | Hid];
      apply elem_of_app; [left; apply IH; exact Hid|].
    right. destruct ev; try (inversion Hid; fail).
    destruct (isTesting _); [inversion Hid|]. exact Hid.
Qed.

(** X17.  The history in [localStorage] after any deliveries to a page
    that found [stored] there: while no result has been saved it is
    what was stored; afterwards it is the first fifty entries of the
    saved results, newest first, followed by what was stored.  So it
    never holds more than fifty entries, unless it was longer to begin
    with and nothing has been saved yet. *)
Theorem history_keeps_fifty_newest_results (stored : list HistoryEntry)
    (events : list Event) :
  let s := deliver (initial stored) events in
  history s = match posted s with
              | [] => stored
              | _ => take 50 (rev (posted s) ++ stored)
              end
  /\ (length (history s) <= Nat.max 50 (length stored))%nat.
Proof.
  cbv zeta.
  assert (Hinv :
    history (deliver (initial stored) events)
    = match posted (deliver (initial stored) events) with
      | [] => stored
      | _ => take 50 (rev (posted (deliver (initial stored) events))
                        ++ stored)
      end).
  { induction events as [| ev events IH] using rev_ind; [reflexivity|].
    rewrite deliver_snoc.
    destruct (step_saves (deliver (initial stored) events) ev)
      as [[Hh Hp] | (id & o & elapsed & random & clock & run & results
                     & _ & _ & _ & Hh & Hp)];
      rewrite Hh, Hp; [exact IH|].
    rewrite saveResults_take, rev_app_distr. cbn [rev app].
    destruct (posted (deliver (initial stored) events)) as [| e posted0].
    - rewrite IH. reflexivity.
    - rewrite IH. cbn [take]. rewrite take_take. reflexivity. }
  split; [exact Hinv|]. rewrite Hinv.
  destruct (posted (deliver (initial stored) events)); [lia|].
  rewrite length_take. lia.
Qed.

(** X18.  A result is saved and sent to the result aggregator only
    under the id of a run that a click started and whose upload was
    settled without error. *)
Theorem posted_results_belong_to_completed_runs
    (stored : list HistoryEntry) (events : list Event)
    (entry : HistoryEntry) :
  entry ∈ posted (deliver (initial stored) events) ->
  h_id entry ∈ clicked events /\ h_id entry ∈ uploads_settled events.
Proof.
  revert entry.
  induction events as [| ev events IH] using rev_ind; intros entry Hin.
  - cbn in Hin. inversion Hin.
  - rewrite deliver_snoc in Hin. unfold clicked, uploads_settled.
    rewrite !omap_app. fold (clicked events) (uploads_settled events).
    destruct (step_saves (deliver (initial stored) events) ev)
      as [[_ Hp] | (id & o & elapsed & random & clock & run & results
                    & -> & Ho & Hfind & _ & Hp)];
      rewrite Hp in Hin.
    + destruct (IH entry Hin). split; apply elem_of_app; left; assumption.
    + apply elem_of_app in Hin as [Hin | Hin].
      * destruct (IH entry Hin). split; apply elem_of_app; left; assumption.
      * apply list_elem_of_singleton in Hin. subst entry. cbn [h_id].
        split; apply elem_of_app.
        -- left. apply (runs_were_clicked stored).
           apply (find_run_id id AwaitUpload _ run). exact Hfind.
        -- right. destruct o; [| |contradiction]; cbn; left.
Qed.

Lemma posted_results_belong_to_completed_runs_witness :
  "TEST_1"%string ∈ clicked (until_stop ++ after_stop)
  /\ "TEST_1"%string ∈ uploads_settled (until_stop ++ after_stop).
Proof.
  refine (posted_results_belong_to_completed_runs []
            (until_stop ++ after_stop)
            (mkHistoryEntry "TEST_1" "2024-01-01T00:00:17.000Z" _) _).
  unfold deliver. cbn. left.
Defined.

End HistoryFacts.
